(** * Offline map: the service worker (sw.js) and the page (script.js)

    A shallow embedding of [src/sw.js] and of the parts of [src/script.js]
    that talk to it.  The worker is event driven; every handler is a chain
    of promises over three pieces of browser state: the CacheStorage
    ([caches]), the live [Response] objects, and what the worker did to the
    outside world (network fetches, console lines, messages posted to
    clients, lifecycle calls).  A promise is modelled as a state transformer
    that settles either fulfilled or rejected; [.then] is [bind], [.catch] is
    [catch].  The page adds its own state (status line, buttons, console) and
    runs its asynchronous functions over the pair of both states. *)

From Stdlib Require Import String Ascii List Bool Arith ZArith DecimalString Lia.
From stdpp Require Import base option list gmap strings fin_maps.

Local Open Scope string_scope.
Local Open Scope list_scope.

(** ** JavaScript strings *)

(** [s.startsWith(p)] *)
Definition startsWith (s p : string) : bool := String.prefix p s.

(** [s.endsWith(suf)]: the last [suf.length] characters of [s] are [suf]. *)
Definition endsWith (s suf : string) : bool :=
  Nat.leb (String.length suf) (String.length s)
  && String.eqb
       (String.substring (String.length s - String.length suf) (String.length suf) s)
       suf.

(** ** Values handled by the worker *)

(** What the worker reads of a [Request]: [request.url], [request.mode],
    [request.destination].  Cached requests are GET requests, their identity
    is the absolute URL. *)
Record Request := {
  url : string;
  mode : string;
  destination : string
}.

(** The captured content of a response: [status], [type] and the body. *)
Record Snapshot := {
  status : nat;
  type : string;
  body : string
}.

(** A live [Response] object.  Its body is a stream that can be read once:
    [bodyUsed] becomes true when it has been consumed. *)
Record Response := {
  content : Snapshot;
  bodyUsed : bool
}.

(** A reference to a [Response] object: its index in the world's [heap]. *)
Definition Ref := nat.

(** A JavaScript error object; the worker only reads [error.message]. *)
Record Error := { message : string }.

Definition Client := nat.

(** The two replies of the control channel:
    [{status: 'cacheDeleted'}] and
    [{status: 'cacheDeleteFailed', error: <message>}]. *)
Inductive Reply :=
| cacheDeleted
| cacheDeleteFailed (error : string).

Inductive Level := log | warn | error_level.

(** What the worker does to the outside world, in order. *)
Inductive Effect :=
| Fetched (u : string)
| Console (l : Level) (args : list string)
| PostMessage (c : Client) (r : Reply)
| SkipWaiting
| ClientsClaim.

(** ** The environment of a run *)

Inductive FetchOutcome :=
| NetOk (s : Snapshot)
| NetFail (e : Error).

(** [origin] is [self.location.origin]; [network] answers a fetch of an
    absolute URL; [storage_fault n] is the error with which the storage
    backend rejects [caches.delete(n)], if it does.  A browser gives the type
    'basic' only to the answer for a URL of the worker's own origin; that
    rule is [basic_only_same_origin] below, assumed where a statement depends
    on it. *)
Record Env := {
  origin : string;
  network : string -> FetchOutcome;
  storage_fault : string -> option Error
}.

(** ** The state of the browser *)

Record World := {
  caches : gmap string (gmap string Snapshot);
  heap : list Response;
  trace : list Effect
}.

Definition set_caches (f : gmap string (gmap string Snapshot) -> gmap string (gmap string Snapshot))
    (w : World) : World :=
  {| caches := f (caches w); heap := heap w; trace := trace w |}.

Definition set_heap (f : list Response -> list Response) (w : World) : World :=
  {| caches := caches w; heap := f (heap w); trace := trace w |}.

Definition emit (e : Effect) (w : World) : World :=
  {| caches := caches w; heap := heap w; trace := trace w ++ [e] |}.

(** The entries of partition [name]; a partition that does not exist has none. *)
Definition entries (w : World) (name : string) : gmap string Snapshot :=
  match caches w !! name with
  | Some c => c
  | None => ∅
  end.

(** The URLs fetched over the network so far. *)
Fixpoint network_calls (t : list Effect) : list string :=
  match t with
  | [] => []
  | Fetched u :: t' => u :: network_calls t'
  | _ :: t' => network_calls t'
  end.

(** The messages posted to clients so far. *)
Fixpoint replies (t : list Effect) : list (Client * Reply) :=
  match t with
  | [] => []
  | PostMessage c r :: t' => (c, r) :: replies t'
  | _ :: t' => replies t'
  end.

(** ** Promises *)

Inductive Settled (A : Type) :=
| Fulfilled (a : A)
| Rejected (e : Error).
Arguments Fulfilled {A} a.
Arguments Rejected {A} e.

Definition Promise (A : Type) : Type := World -> Settled A * World.

Definition resolve {A} (a : A) : Promise A := fun w => (Fulfilled a, w).

Definition reject {A} (e : Error) : Promise A := fun w => (Rejected e, w).

(** [p.then(k)] *)
Definition bind {A B} (p : Promise A) (k : A -> Promise B) : Promise B :=
  fun w =>
    match p w with
    | (Fulfilled a, w') => k a w'
    | (Rejected e, w') => (Rejected e, w')
    end.

(** [p.catch(h)] *)
Definition catch {A} (p : Promise A) (h : Error -> Promise A) : Promise A :=
  fun w =>
    match p w with
    | (Fulfilled a, w') => (Fulfilled a, w')
    | (Rejected e, w') => h e w'
    end.

(** A promise that is started and whose settlement nobody waits for
    (an expression statement [p;]): the operation is carried out where it is
    started, and its result, fulfilled or rejected, is dropped. *)
Definition detached {A} (p : Promise A) : Promise unit :=
  fun w => (Fulfilled tt, snd (p w)).

(** [Promise.all(ps)]: every promise of the array has already been started, so
    all of them run; the result is rejected when one of them is. *)
Fixpoint Promise_all {A} (ps : list (Promise A)) : Promise (list A) :=
  fun w =>
    match ps with
    | [] => (Fulfilled [], w)
    | p :: ps' =>
        let (r, w1) := p w in
        let (rs, w2) := Promise_all ps' w1 in
        (match r, rs with
         | Rejected e, _ => Rejected e
         | Fulfilled _, Rejected e => Rejected e
         | Fulfilled a, Fulfilled l => Fulfilled (a :: l)
         end, w2)
    end.

Declare Scope promise_scope.
Delimit Scope promise_scope with promise.
Notation "x <- p ;; k" := (bind p (fun x => k))
  (at level 100, p at next level, right associativity) : promise_scope.
Notation "p ;;; k" := (bind p (fun _ => k))
  (at level 100, right associativity) : promise_scope.
Local Open Scope promise_scope.

(** ** The platform: console, fetch, Response, CacheStorage, Cache *)

Definition console (l : Level) (args : list string) : Promise unit :=
  fun w => (Fulfilled tt, emit (Console l args) w).

Definition postMessage (c : Client) (r : Reply) : Promise unit :=
  fun w => (Fulfilled tt, emit (PostMessage c r) w).

Definition skipWaiting : Promise unit :=
  fun w => (Fulfilled tt, emit SkipWaiting w).

Definition clients_claim : Promise unit :=
  fun w => (Fulfilled tt, emit ClientsClaim w).

(** The object a reference points to, if any (a reference that points to
    nothing reads as [undefined]). *)
Definition deref (r : Ref) : Promise (option Response) :=
  fun w => (Fulfilled (heap w !! r), w).

(** A new [Response] object. *)
Definition new_Response (s : Snapshot) : Promise Ref :=
  fun w =>
    (Fulfilled (length (heap w)),
     set_heap (fun h => (h ++ [{| content := s; bodyUsed := false |}])%list) w).

(** [response.clone()]: throws a TypeError when the body has been used. *)
Definition clone (r : Ref) : Promise Ref :=
  fun w =>
    match heap w !! r with
    | Some o =>
        if bodyUsed o
        then (Rejected {| message := "Response body is already used" |}, w)
        else new_Response (content o) w
    | None => (Rejected {| message := "not a Response" |}, w)
    end.

(** The absolute URL of an entry of the asset list: a path that starts with
    "/" is resolved against the worker's origin, an absolute URL is itself. *)
Definition absolute (env : Env) (u : string) : string :=
  if startsWith u "/" then origin env +:+ u else u.

(** [fetch(u)] *)
Definition fetch (env : Env) (u : string) : Promise Ref :=
  fun w =>
    let w1 := emit (Fetched u) w in
    match network env u with
    | NetOk s => new_Response s w1
    | NetFail e => (Rejected e, w1)
    end.

(** [caches.open(name)]: the partition is created when it does not exist.
    The [Cache] handle is the partition's name. *)
Definition caches_open (name : string) : Promise string :=
  fun w =>
    match caches w !! name with
    | Some _ => (Fulfilled name, w)
    | None => (Fulfilled name, set_caches (insert name ∅) w)
    end.

(** [caches.keys()] *)
Definition caches_keys : Promise (list string) :=
  fun w => (Fulfilled (elements (dom (caches w))), w).

(** [caches.delete(name)]: fulfilled with whether the partition existed. *)
Definition caches_delete (env : Env) (name : string) : Promise bool :=
  fun w =>
    match storage_fault env name with
    | Some e => (Rejected e, w)
    | None =>
        match caches w !! name with
        | Some _ => (Fulfilled true, set_caches (delete name) w)
        | None => (Fulfilled false, w)
        end
    end.

(** [cache.match(u)]: a fresh [Response] made of the stored snapshot, or
    [undefined]. *)
Definition cache_match (cache : string) (u : string) : Promise (option Ref) :=
  fun w =>
    match entries w cache !! u with
    | Some s =>
        let (r, w') := new_Response s w in
        (match r with
         | Fulfilled o => Fulfilled (Some o)
         | Rejected e => Rejected e
         end, w')
    | None => (Fulfilled None, w)
    end.

(** [cache.put(u, response)]: reads the body of [response] to its end and
    stores the snapshot under [u]; a used body or a partial response (206)
    is a TypeError. *)
Definition cache_put (cache : string) (u : string) (r : Ref) : Promise unit :=
  fun w =>
    match heap w !! r with
    | Some o =>
        if bodyUsed o || Nat.eqb (status (content o)) 206
        then (Rejected {| message := "Cache.put: unusable response" |}, w)
        else
          (Fulfilled tt,
           set_caches (insert cache (<[u := content o]> (entries w cache)))
             (set_heap (<[r := {| content := content o; bodyUsed := true |}]>) w))
    | None => (Rejected {| message := "not a Response" |}, w)
    end.

(** [response.ok] *)
Definition ok (s : Snapshot) : bool := Nat.leb 200 (status s) && Nat.leb (status s) 299.

(** [cache.add(u)]: fetch [u], reject a response that is not ok, store it. *)
Definition cache_add (env : Env) (cache : string) (u : string) : Promise unit :=
  r <- fetch env (absolute env u) ;;
  o <- deref r ;;
  match o with
  | Some o =>
      if ok (content o)
      then cache_put cache (absolute env u) r
      else reject {| message := "Cache.add: bad response status" |}
  | None => reject {| message := "not a Response" |}
  end.

(** ** Configuration of a deployment (sw.js, lines 2-22) *)

Record Config := {
  APP_SHELL_CACHE_NAME : string;
  TILE_CACHE_NAME : string;
  TILE_URL_PATTERN : string;
  APP_SHELL_FILES : list string
}.

(** The constants of the deployed script. *)
Definition sw_config : Config := {|
  APP_SHELL_CACHE_NAME := "offline-map-appshell-v1";
  TILE_CACHE_NAME := "offline-map-tiles-v1";
  TILE_URL_PATTERN := "https://tile.openstreetmap.org/";
  APP_SHELL_FILES :=
    [ "/";
      "/index.html";
      "/style.css";
      "/script.js";
      "/manifest.json";
      "/icons/icon-192x192.png";
      "/icons/icon-512x512.png";
      "https://unpkg.com/leaflet@1.9.4/dist/leaflet.css";
      "https://unpkg.com/leaflet@1.9.4/dist/leaflet.js" ]
|}.

(** A redeployment that only changes the tile partition's generation. *)
Definition with_tile_cache_name (cfg : Config) (name : string) : Config := {|
  APP_SHELL_CACHE_NAME := APP_SHELL_CACHE_NAME cfg;
  TILE_CACHE_NAME := name;
  TILE_URL_PATTERN := TILE_URL_PATTERN cfg;
  APP_SHELL_FILES := APP_SHELL_FILES cfg
|}.

(** The message event of the control channel: [event.data] (an object with
    an [action], or nothing) and [event.source]. *)
Record MessageData := { action : string }.

Record MessageEvent := {
  data : option MessageData;
  source : option Client
}.

(** ** The worker *)

Section Worker.

Variable cfg : Config.
Variable env : Env.

(** The callback of [APP_SHELL_FILES.map] in the install listener
    (lines 35-39): a failure to cache one file is caught and logged. *)
Definition cache_asset (cache : string) (urlToCache : string) : Promise unit :=
  catch (cache_add env cache urlToCache)
    (fun err => console warn ["Failed to cache " +:+ urlToCache +:+ ":"; message err]).

(** The install listener (lines 27-44). *)
Definition install : Promise unit :=
  console log ["Service Worker: Install"] ;;;
  cache <- caches_open (APP_SHELL_CACHE_NAME cfg) ;;
  console log ["Service Worker: Caching App Shell"] ;;;
  let cachePromises := map (cache_asset cache) (APP_SHELL_FILES cfg) in
  Promise_all cachePromises ;;;
  skipWaiting.

(** The test of the activate listener (lines 54-55): the partition is one of
    the worker's and is not the current generation. *)
Definition is_old_cache (cacheName : string) : bool :=
  (startsWith cacheName "offline-map-appshell-"
   && negb (String.eqb cacheName (APP_SHELL_CACHE_NAME cfg)))
  || (startsWith cacheName "offline-map-tiles-"
      && negb (String.eqb cacheName (TILE_CACHE_NAME cfg))).

(** The callback of [cacheNames.map] in the activate listener (lines 52-59):
    the promise of [caches.delete], or [undefined]. *)
Definition delete_if_old (cacheName : string) : Promise (option bool) :=
  if is_old_cache cacheName
  then
    console log ["Service Worker: Deleting old cache"; cacheName] ;;;
    deleted <- caches_delete env cacheName ;;
    resolve (Some deleted)
  else resolve None.

(** The activate listener (lines 47-65). *)
Definition activate : Promise unit :=
  console log ["Service Worker: Activate"] ;;;
  cacheNames <- caches_keys ;;
  Promise_all (map delete_if_old cacheNames) ;;;
  clients_claim.

(** [cacheFirstThenNetwork] (lines 90-116). *)
Definition cacheFirstThenNetwork (request : Request) (cacheName : string) : Promise Ref :=
  cache <- caches_open cacheName ;;
  cachedResponse <- cache_match cache (url request) ;;
  match cachedResponse with
  | Some hit => resolve hit
  | None =>
      catch
        (networkResponse <- fetch env (url request) ;;
         o <- deref networkResponse ;;
         match o with
         | Some o =>
             if Nat.eqb (status (content o)) 200 && String.eqb (type (content o)) "basic"
             then
               responseToCache <- clone networkResponse ;;
               detached (cache_put cache (url request) responseToCache)
             else resolve tt
         | None => resolve tt
         end ;;;
         resolve networkResponse)
        (fun error =>
           console warn ["Fetch failed; network error or offline:"; message error] ;;;
           reject error)
  end.

(** [isAppShellRequest] (lines 122-135). *)
Definition isAppShellRequest (request : Request) : bool :=
  let isSameOrigin := startsWith (url request) (origin env) in
  let isListedFile := existsb (fun fileUrl => endsWith (url request) fileUrl) (APP_SHELL_FILES cfg) in
  let isNavigation := String.eqb (mode request) "navigate" in
  let isLeafletResource := startsWith (url request) "https://unpkg.com/leaflet" in
  isNavigation || isListedFile || isLeafletResource
  || (isSameOrigin && negb (String.eqb (destination request) "")).

(** The fetch listener (lines 68-85): the promise given to
    [event.respondWith]. *)
Definition onfetch (request : Request) : Promise Ref :=
  let requestUrl := url request in
  if startsWith requestUrl (TILE_URL_PATTERN cfg)
  then cacheFirstThenNetwork request (TILE_CACHE_NAME cfg)
  else if isAppShellRequest request
  then cacheFirstThenNetwork request (APP_SHELL_CACHE_NAME cfg)
  else fetch env (url request).

(** The message listener (lines 140-160). *)
Definition onmessage (event : MessageEvent) : Promise unit :=
  match data event with
  | Some d =>
      if String.eqb (action d) "deleteCache"
      then
        console log ["Service Worker: Received delete TILE cache message"] ;;;
        catch
          (caches_delete env (TILE_CACHE_NAME cfg) ;;;
           console log ["Service Worker: Tile cache deleted successfully."] ;;;
           match source event with
           | Some client => postMessage client cacheDeleted
           | None => resolve tt
           end)
          (fun error =>
             console error_level ["Service Worker: Failed to delete tile cache:"; message error] ;;;
             match source event with
             | Some client => postMessage client (cacheDeleteFailed (message error))
             | None => resolve tt
             end)
      else resolve tt
  | None => resolve tt
  end.

End Worker.

(** ** Definitions used by the statements *)

(** The sweep of the activate listener over a list of partition names. *)
Definition sweep (cfg : Config) (env : Env) (cacheNames : list string) : Promise (list (option bool)) :=
  Promise_all (map (delete_if_old cfg env) cacheNames).

(** The names of a deployment are generations of their classes. *)
Definition generations (cfg : Config) : Prop :=
  startsWith (APP_SHELL_CACHE_NAME cfg) "offline-map-appshell-" = true
  /\ startsWith (TILE_CACHE_NAME cfg) "offline-map-tiles-" = true.

(** The test of lines 54-55, as a proposition. *)
Definition old_generation (cfg : Config) (n : string) : Prop :=
  (startsWith n "offline-map-appshell-" = true /\ n <> APP_SHELL_CACHE_NAME cfg)
  \/ (startsWith n "offline-map-tiles-" = true /\ n <> TILE_CACHE_NAME cfg).

(** The snapshot that [cache.add] stores for an asset: the answer of the
    network when the fetch succeeds with an ok status that [cache.put]
    accepts; nothing when the fetch or the store fails. *)
Definition fetched_asset (env : Env) (urlToCache : string) : option Snapshot :=
  match network env (absolute env urlToCache) with
  | NetOk s => if ok s && negb (Nat.eqb (status s) 206) then Some s else None
  | NetFail _ => None
  end.

(** The entries that caching the assets of [l], in order, adds to [c]. *)
Definition populated (env : Env) (l : list string) (c : gmap string Snapshot) : gmap string Snapshot :=
  fold_left
    (fun c f =>
       match fetched_asset env f with
       | Some s => <[absolute env f := s]> c
       | None => c
       end)
    l c.

(** The message posted to the sender, when there is one. *)
Definition reply_to (source : option Client) (r : Reply) : list (Client * Reply) :=
  match source with
  | Some client => [(client, r)]
  | None => []
  end.

(** The lifecycle of a deployment: the install event, then the activate event. *)
Definition deploy (cfg : Config) (env : Env) : Promise unit :=
  install cfg env ;;; activate cfg env.

Definition empty_world : World := {| caches := ∅; heap := []; trace := [] |}.

(** A browser in which the application-shell partition already holds an
    entry: an image of the page that the fetch listener stored earlier. *)
Definition used_shell_world : World := {|
  caches :=
    {[ "offline-map-appshell-v1" :=
         {[ "https://app.example/img/logo.png" :=
              {| status := 200; type := "basic"; body := "png" |} ]} ]};
  heap := [];
  trace := []
|}.

(** ** The answers of a browser's network *)

(** A URL of the worker's own origin. *)
Definition same_origin (env : Env) (u : string) : bool :=
  startsWith u (origin env +:+ "/").

(** What a browser makes of an answer: the type of a response is 'basic'
    only when the URL is of the worker's own origin; the answer of another
    origin is 'cors' (or 'opaque'), never 'basic'. *)
Definition basic_only_same_origin (env : Env) : Prop :=
  forall u s, network env u = NetOk s -> type s = "basic" -> same_origin env u = true.

(** The tile server is another origin than the worker's: no URL under the
    tile prefix is a URL of the worker's origin. *)
Definition tiles_cross_origin (cfg : Config) (env : Env) : Prop :=
  forall u, startsWith u (TILE_URL_PATTERN cfg) = true -> same_origin env u = false.

(** A successful answer as the worker at origin [o] sees it: 'basic' for a
    URL of its origin, 'cors' for another origin. *)
Definition browser_answer (o u : string) : Snapshot :=
  {| status := 200;
     type := if startsWith u (o +:+ "/") then "basic" else "cors";
     body := u |}.

(** Scenario A: the asset list is ["/a.html"; "/b.css"] and the fetch of
    "/b.css" fails. *)
Definition scenario_A_config : Config := {|
  APP_SHELL_CACHE_NAME := "offline-map-appshell-v1";
  TILE_CACHE_NAME := "offline-map-tiles-v1";
  TILE_URL_PATTERN := "https://tile.openstreetmap.org/";
  APP_SHELL_FILES := ["/a.html"; "/b.css"]
|}.

Definition scenario_A_env : Env := {|
  origin := "https://app.example";
  network := fun u =>
    if String.eqb u "https://app.example/b.css"
    then NetFail {| message := "Failed to fetch" |}
    else NetOk (browser_answer "https://app.example" u);
  storage_fault := fun _ => None
|}.

(** The second deployment of scenario B: the tile partition's name goes from
    'offline-map-tiles-v1' to 'offline-map-tiles-v2'. *)
Definition tiles_v2_config : Config :=
  with_tile_cache_name sw_config "offline-map-tiles-v2".

Definition scenario_B_env : Env := {|
  origin := "https://app.example";
  network := fun u => NetOk (browser_answer "https://app.example" u);
  storage_fault := fun _ => None
|}.

Definition tile_request : Request := {|
  url := "https://tile.openstreetmap.org/5/10/12.png";
  mode := "no-cors";
  destination := "image"
|}.

(** A request of the page for an image of its own origin. *)
Definition logo_request : Request := {|
  url := "https://app.example/img/logo.png";
  mode := "no-cors";
  destination := "image"
|}.

(** The browser after the first deployment has been installed and activated
    and has served one tile. *)
Definition scenario_B_world : World :=
  snd ((deploy sw_config scenario_B_env ;;; onfetch sw_config scenario_B_env tile_request)
         empty_world).

(** The storage test of line 102: status 200 and type 'basic'. *)
Definition eligible (s : Snapshot) : bool :=
  Nat.eqb (status s) 200 && String.eqb (type s) "basic".

(** The cache storage with partition [name] opened. *)
Definition opened (name : string) (w : World) : gmap string (gmap string Snapshot) :=
  <[name := entries w name]> (caches w).

(** * The page (script.js) *)

(** ** Numbers and strings *)

(** [String(n)] for an integer [n]: its decimal digits, as JavaScript prints
    an integer below 10^21 in magnitude. *)
Definition Number_toString (n : Z) : string := NilZero.string_of_int (Z.to_int n).

(** [s.replace(pat, rep)] for a string pattern [pat]: the first occurrence of
    [pat] in [s] is replaced by [rep] (a [rep] without '$', as the digits of
    a number are). *)
Fixpoint replace (s pat rep : string) : string :=
  if String.prefix pat s
  then rep +:+ String.substring (String.length pat) (String.length s - String.length pat) s
  else match s with
       | EmptyString => EmptyString
       | String c s' => String c (replace s' pat rep)
       end.

(** [l.slice(i, j)] for [0 <= i <= j]. *)
Definition slice {A} (i j : nat) (l : list A) : list A := firstn (j - i) (skipn i l).

(** The values of [x] in [for (let x = a; x <= b; x++)]. *)
Definition for_range (a b : Z) : list Z :=
  map (fun k => (a + Z.of_nat k)%Z) (seq 0 (Z.to_nat (b - a + 1))).

(** The values of [i] in [for (let i = 0; i < total; i += step)]. *)
Definition for_step (total step : nat) : list nat :=
  map (fun k => k * step) (seq 0 ((total + step - 1) / step)).

(** ** Constants (script.js, line 10) *)

Definition TILE_LAYER_URL : string := "https://tile.openstreetmap.org/{z}/{x}/{y}.png".

(** ** The state of the page *)

(** A promise that the page starts and never waits for; the only one is
    [checkCacheExists().then(exists => { deleteBtn.disabled = !exists; })]
    (lines 61-63 and 155-157). *)
Inductive PagePromise :=
| checkCacheExists_then_deleteBtn.

(** The DOM nodes the script writes ([statusDiv.textContent],
    [downloadBtn.disabled], [deleteBtn.disabled]), whether the 'message'
    listener of [navigator.serviceWorker] is installed, the variable
    [downloadedCount] that the callbacks of [downloadTiles] share, and what
    the page did: its console lines, the [confirm] dialogs it showed, the
    messages it posted to [navigator.serviceWorker.controller], and the
    promises it started without waiting for them, which settle later. *)
Record Page := {
  statusDiv_textContent : string;
  downloadBtn_disabled : bool;
  deleteBtn_disabled : bool;
  message_listener : bool;
  downloadedCount : nat;
  page_console : list (Level * list string);
  confirms : list string;
  posted : list MessageData;
  pending : list PagePromise
}.

(** What the page finds in its browser: ['serviceWorker' in navigator],
    [navigator.serviceWorker.controller], ['caches' in window], the outcome
    of [navigator.serviceWorker.register('sw.js')] (the scope of the
    registration, or an error), and the error with which the page's [fetch]
    is rejected when the worker's answer is. *)
Record Navigator := {
  serviceWorker_in_navigator : bool;
  controller : bool;
  caches_in_window : bool;
  register_sw : Settled string;
  fetch_TypeError : Error
}.

(** The message the page receives for a reply of the worker: an object with
    a [status] and, for a failure, an [error]. *)
Record WorkerMessage := {
  message_status : string;
  message_error : option string
}.

Definition reply_data (r : Reply) : WorkerMessage :=
  match r with
  | cacheDeleted => {| message_status := "cacheDeleted"; message_error := None |}
  | cacheDeleteFailed e => {| message_status := "cacheDeleteFailed"; message_error := Some e |}
  end.

(** The coordinates of a tile, as [getTileCoordinates] returns them. *)
Module Tile.
Record t := { x : Z; y : Z; z : Z }.
End Tile.

Definition set_statusDiv_textContent (v : string) (p : Page) : Page :=
  {| statusDiv_textContent := v;
     downloadBtn_disabled := downloadBtn_disabled p;
     deleteBtn_disabled := deleteBtn_disabled p;
     message_listener := message_listener p;
     downloadedCount := downloadedCount p;
     page_console := page_console p;
     confirms := confirms p;
     posted := posted p;
     pending := pending p |}.

Definition set_downloadBtn_disabled (v : bool) (p : Page) : Page :=
  {| statusDiv_textContent := statusDiv_textContent p;
     downloadBtn_disabled := v;
     deleteBtn_disabled := deleteBtn_disabled p;
     message_listener := message_listener p;
     downloadedCount := downloadedCount p;
     page_console := page_console p;
     confirms := confirms p;
     posted := posted p;
     pending := pending p |}.

Definition set_deleteBtn_disabled (v : bool) (p : Page) : Page :=
  {| statusDiv_textContent := statusDiv_textContent p;
     downloadBtn_disabled := downloadBtn_disabled p;
     deleteBtn_disabled := v;
     message_listener := message_listener p;
     downloadedCount := downloadedCount p;
     page_console := page_console p;
     confirms := confirms p;
     posted := posted p;
     pending := pending p |}.

Definition set_message_listener (v : bool) (p : Page) : Page :=
  {| statusDiv_textContent := statusDiv_textContent p;
     downloadBtn_disabled := downloadBtn_disabled p;
     deleteBtn_disabled := deleteBtn_disabled p;
     message_listener := v;
     downloadedCount := downloadedCount p;
     page_console := page_console p;
     confirms := confirms p;
     posted := posted p;
     pending := pending p |}.

Definition set_downloadedCount (v : nat) (p : Page) : Page :=
  {| statusDiv_textContent := statusDiv_textContent p;
     downloadBtn_disabled := downloadBtn_disabled p;
     deleteBtn_disabled := deleteBtn_disabled p;
     message_listener := message_listener p;
     downloadedCount := v;
     page_console := page_console p;
     confirms := confirms p;
     posted := posted p;
     pending := pending p |}.

(** [console.log], [console.warn], [console.error] of the page. *)
Definition page_log (l : Level) (args : list string) (p : Page) : Page :=
  {| statusDiv_textContent := statusDiv_textContent p;
     downloadBtn_disabled := downloadBtn_disabled p;
     deleteBtn_disabled := deleteBtn_disabled p;
     message_listener := message_listener p;
     downloadedCount := downloadedCount p;
     page_console := page_console p ++ [(l, args)];
     confirms := confirms p;
     posted := posted p;
     pending := pending p |}.

(** [confirm(text)]: the dialog is shown; the user's answer is an input. *)
Definition show_confirm (text : string) (p : Page) : Page :=
  {| statusDiv_textContent := statusDiv_textContent p;
     downloadBtn_disabled := downloadBtn_disabled p;
     deleteBtn_disabled := deleteBtn_disabled p;
     message_listener := message_listener p;
     downloadedCount := downloadedCount p;
     page_console := page_console p;
     confirms := confirms p ++ [text];
     posted := posted p;
     pending := pending p |}.

(** [navigator.serviceWorker.controller.postMessage(d)] *)
Definition controller_postMessage (d : MessageData) (p : Page) : Page :=
  {| statusDiv_textContent := statusDiv_textContent p;
     downloadBtn_disabled := downloadBtn_disabled p;
     deleteBtn_disabled := deleteBtn_disabled p;
     message_listener := message_listener p;
     downloadedCount := downloadedCount p;
     page_console := page_console p;
     confirms := confirms p;
     posted := posted p ++ [d];
     pending := pending p |}.

(** A promise is started and not waited for: it is pending. *)
Definition start_unawaited (j : PagePromise) (p : Page) : Page :=
  {| statusDiv_textContent := statusDiv_textContent p;
     downloadBtn_disabled := downloadBtn_disabled p;
     deleteBtn_disabled := deleteBtn_disabled p;
     message_listener := message_listener p;
     downloadedCount := downloadedCount p;
     page_console := page_console p;
     confirms := confirms p;
     posted := posted p;
     pending := pending p ++ [j] |}.

(** ** Functions of the page that touch the page only *)

(** [updateStatus] (lines 263-266). *)
Definition updateStatus (message : string) (p : Page) : Page :=
  set_statusDiv_textContent ("ステータス: " +:+ message)
    (page_log log ["Status:"; message] p).

(** The 'message' listener installed by [registerServiceWorker]
    (lines 27-36); [d] is [event.data]. *)
Definition onWorkerMessage (d : option WorkerMessage) (p : Page) : Page :=
  match d with
  | Some d =>
      if String.eqb (message_status d) "cacheDeleted"
      then
        set_deleteBtn_disabled true
          (set_downloadBtn_disabled false
             (updateStatus "オフライン地図のキャッシュが削除されました。" p))
      else if String.eqb (message_status d) "cacheDeleteFailed"
      then
        set_deleteBtn_disabled false
          (updateStatus
             ("キャッシュ削除エラー: "
              +:+ match message_error d with Some e => e | None => "undefined" end)
             p)
      else p
  | None => p
  end.

(** [registerServiceWorker] (lines 21-47). *)
Definition registerServiceWorker (nav : Navigator) (p : Page) : Page :=
  if serviceWorker_in_navigator nav
  then
    match register_sw nav with
    | Fulfilled scope =>
        set_message_listener true
          (page_log log ["Service Worker registered with scope:"; scope] p)
    | Rejected error =>
        updateStatus "Service Workerの登録に失敗しました。オフライン機能は利用できません。"
          (page_log error_level ["Service Worker registration failed:"; message error] p)
    end
  else
    set_deleteBtn_disabled true
      (set_downloadBtn_disabled true
         (updateStatus "Service Workerがサポートされていません。オフライン機能は利用できません。" p)).

(** [deleteTiles] (lines 162-174). *)
Definition deleteTiles (nav : Navigator) (p : Page) : Page :=
  if serviceWorker_in_navigator nav && controller nav
  then
    controller_postMessage {| action := "deleteCache" |}
      (set_deleteBtn_disabled true
         (set_downloadBtn_disabled true
            (updateStatus "オフライン地図のキャッシュを削除中..." p)))
  else updateStatus "Service Workerが有効ではありません。削除できません。" p.

(** The click listener of [deleteBtn] (lines 83-87); [answer] is what the
    user answers to the dialog. *)
Definition onDeleteClick (nav : Navigator) (answer : bool) (p : Page) : Page :=
  let p := show_confirm "ダウンロード済みのオフライン地図を削除しますか？" p in
  if answer then deleteTiles nav p else p.

(** [TILE_LAYER_URL.replace('{z}', z).replace('{x}', x).replace('{y}', y)]
    (line 112). *)
Definition tile_url (z x y : Z) : string :=
  replace (replace (replace TILE_LAYER_URL "{z}" (Number_toString z))
             "{x}" (Number_toString x))
    "{y}" (Number_toString y).

(** ** The page and the worker together *)

(** The page and the worker share the cache storage of their origin; a
    response handed to the page is an object of the same heap. *)
Record Browser := {
  page : Page;
  worker : World
}.

(** An asynchronous function of the page. *)
Definition Task (A : Type) : Type := Browser -> Settled A * Browser.

Definition task_resolve {A} (a : A) : Task A := fun b => (Fulfilled a, b).

(** [await p; k] and [p.then(k)] *)
Definition task_bind {A B} (p : Task A) (k : A -> Task B) : Task B :=
  fun b =>
    match p b with
    | (Fulfilled a, b') => k a b'
    | (Rejected e, b') => (Rejected e, b')
    end.

(** [p.catch(h)] *)
Definition task_catch {A} (p : Task A) (h : Error -> Task A) : Task A :=
  fun b =>
    match p b with
    | (Fulfilled a, b') => (Fulfilled a, b')
    | (Rejected e, b') => h e b'
    end.

(** [try { body } catch (error) { h } finally { fin }] *)
Definition task_try (body : Task unit) (h : Error -> Task unit) (fin : Task unit) : Task unit :=
  fun b =>
    let (r, b1) := task_catch body h b in
    let (rf, b2) := fin b1 in
    (match rf with
     | Rejected e => Rejected e
     | Fulfilled _ => r
     end, b2).

(** [Promise.all] over promises of the page. *)
Fixpoint Task_all {A} (ps : list (Task A)) : Task (list A) :=
  fun b =>
    match ps with
    | [] => (Fulfilled [], b)
    | p :: ps' =>
        let (r, b1) := p b in
        let (rs, b2) := Task_all ps' b1 in
        (match r, rs with
         | Rejected e, _ => Rejected e
         | Fulfilled _, Rejected e => Rejected e
         | Fulfilled a, Fulfilled l => Fulfilled (a :: l)
         end, b2)
    end.

(** The body of a [for] loop with an [await], run for each value in turn;
    a rejection leaves the loop. *)
Fixpoint task_for {I} (values : list I) (body : I -> Task unit) : Task unit :=
  match values with
  | [] => task_resolve tt
  | i :: rest => task_bind (body i) (fun _ => task_for rest body)
  end.

(** A step on the page only. *)
Definition on_page (f : Page -> Page) : Task unit :=
  fun b => (Fulfilled tt, {| page := f (page b); worker := worker b |}).

(** A promise of the shared platform, run from the page. *)
Definition on_platform {A} (p : Promise A) : Task A :=
  fun b => let (r, w) := p (worker b) in (r, {| page := page b; worker := w |}).

Declare Scope task_scope.
Delimit Scope task_scope with task.
Notation "x <- p ;; k" := (task_bind p (fun x => k))
  (at level 100, p at next level, right associativity) : task_scope.
Notation "p ;;; k" := (task_bind p (fun _ => k))
  (at level 100, right associativity) : task_scope.

(** [cache.keys()]: the URLs of the entries of the partition. *)
Definition cache_keys (cache : string) : Promise (list string) :=
  fun w => (Fulfilled (map fst (map_to_list (entries w cache))), w).

Section PageTasks.

Variable cfg : Config.
Variable env : Env.
Variable nav : Navigator.

(** [getTileCoordinates] (lines 254-260) is floating-point arithmetic; it is
    taken as given, together with the type of its first argument. *)
Variable LatLng : Type.
Variable getTileCoordinates : LatLng -> Z -> Tile.t.

(** [Math.round((downloadedCount / totalTiles) * 100)] (line 142),
    floating-point arithmetic as well. *)
Variable progress_percent : nat -> nat -> Z.

(** [map.getBounds()], with its two corners. *)
Record Bounds := {
  getNorthWest : LatLng;
  getSouthEast : LatLng
}.

(** [fetch(url)] from the page: with a controller, the request goes to the
    fetch listener of the worker, and a rejected answer makes the page's
    promise reject with the browser's TypeError. *)
Definition page_fetch (u : string) : Task Ref :=
  if controller nav
  then
    fun b =>
      let (r, w) := onfetch cfg env {| url := u; mode := "cors"; destination := "" |} (worker b) in
      (match r with
       | Fulfilled o => Fulfilled o
       | Rejected _ => Rejected (fetch_TypeError nav)
       end, {| page := page b; worker := w |})
  else on_platform (fetch env u).

(** [checkCacheExists] (lines 177-182). *)
Definition checkCacheExists : Task bool :=
  if negb (caches_in_window nav)
  then task_resolve false
  else
    on_platform
      (cache <- caches_open "offline-map-tiles-v1" ;;
       keys <- cache_keys cache ;;
       resolve (Nat.ltb 0 (length keys)))%promise.



(** The list [tileUrls] built by the loops of lines 105-116. *)
Definition tileUrls (bounds : Bounds) (minZoom maxZoom : Z) : list string :=
  flat_map
    (fun z =>
       let topLeftTile := getTileCoordinates (getNorthWest bounds) z in
       let bottomRightTile := getTileCoordinates (getSouthEast bounds) z in
       flat_map
         (fun x =>
            map (fun y => tile_url z x y)
              (for_range (Tile.y topLeftTile) (Tile.y bottomRightTile)))
         (for_range (Tile.x topLeftTile) (Tile.x bottomRightTile)))
    (for_range minZoom maxZoom).

(** The callback of [batch.map] (lines 127-140). *)
Definition fetch_tile (u : string) : Task unit :=
  task_catch
    (response <- page_fetch u ;;
     o <- on_platform (deref response) ;;
     match o with
     | Some o =>
         if negb (ok (content o))
         then on_page (page_log warn
                         ["Failed to fetch tile: " +:+ u +:+ ", Status: "
                          +:+ Number_toString (Z.of_nat (status (content o)))])
         else task_resolve tt
     | None => task_resolve tt
     end ;;;
     on_page (fun p => set_downloadedCount (downloadedCount p + 1) p))%task
    (fun error =>
       on_page (page_log warn ["Error fetching tile: " +:+ u; message error]) ;;;
       on_page (fun p => set_downloadedCount (downloadedCount p + 1) p))%task.

(** The body of the loop over the batches (lines 126-143), for the batch
    that starts at [i]. *)
Definition download_batch (tileUrls : list string) (i : nat) : Task unit :=
  let totalTiles := length tileUrls in
  let batchSize := 10 in
  let batch := slice i (i + batchSize) tileUrls in
  (Task_all (map fetch_tile batch) ;;;
   fun b =>
     let progress := progress_percent (downloadedCount (page b)) totalTiles in
     on_page (updateStatus ("タイル数: " +:+ Number_toString (Z.of_nat totalTiles)
                            +:+ " 枚をダウンロード中... ("
                            +:+ Number_toString progress +:+ "%)")) b)%task.

(** [downloadTiles] (lines 95-159). *)
Definition downloadTiles (bounds : Bounds) (minZoom maxZoom : Z) : Task unit :=
  if negb (serviceWorker_in_navigator nav && controller nav)
  then on_page (updateStatus "Service Workerが有効ではありません。ダウンロードできません。")
  else
    (on_page (updateStatus "タイルのダウンロードを開始します...") ;;;
     on_page (set_downloadBtn_disabled true) ;;;
     on_page (set_deleteBtn_disabled true) ;;;
     let tileUrls := tileUrls bounds minZoom maxZoom in
     on_page (updateStatus ("タイル数: " +:+ Number_toString (Z.of_nat (length tileUrls))
                            +:+ " 枚をダウンロード中... (0%)")) ;;;
     on_page (set_downloadedCount 0) ;;;
     let totalTiles := length tileUrls in
     let batchSize := 10 in
     task_try
       (task_for (for_step totalTiles batchSize) (download_batch tileUrls) ;;;
        (fun b =>
           on_page (updateStatus ("ダウンロード完了: "
                                  +:+ Number_toString (Z.of_nat (downloadedCount (page b)))
                                  +:+ " / " +:+ Number_toString (Z.of_nat totalTiles)
                                  +:+ " 枚のタイルを処理しました。")) b) ;;;
        on_page (set_deleteBtn_disabled false))
       (fun error =>
          on_page (page_log error_level ["Download error:"; message error]) ;;;
          on_page (updateStatus ("ダウンロード中にエラーが発生しました: " +:+ message error)))
       (on_page (set_downloadBtn_disabled false) ;;;
        on_page (start_unawaited checkCacheExists_then_deleteBtn)))%task.

(** The click listener of [downloadBtn] (lines 68-81).  [minZoom] and
    [maxZoom] are the results of [parseInt] (nothing for NaN); [answer] is
    what the user answers to the dialog, when it is shown. *)
Definition onDownloadClick (bounds : Bounds) (minZoom maxZoom : option Z) (answer : bool) : Task unit :=
  match minZoom, maxZoom with
  | Some minZoom, Some maxZoom =>
      if (minZoom <? 1)%Z || (maxZoom >? 18)%Z || (minZoom >? maxZoom)%Z
      then on_page (updateStatus "ズームレベルの指定が無効です。1から18の間で、最小 <= 最大となるように設定してください。")
      else
        (on_page (show_confirm
                    ("現在の表示範囲 (ズーム " +:+ Number_toString minZoom +:+ " ～ "
                     +:+ Number_toString maxZoom
                     +:+ ") のタイルをダウンロードしますか？" +:+ String (ascii_of_nat 10) ""
                     +:+ "多くのタイルをダウンロードすると時間がかかり、ストレージを消費します。")) ;;;
         if answer then downloadTiles bounds minZoom maxZoom else task_resolve tt)%task
  | _, _ => on_page (updateStatus "ズームレベルの指定が無効です。1から18の間で、最小 <= 最大となるように設定してください。")
  end.

(** The delivery of a message of the page to the message listener of the
    worker, and of the worker's new replies to the 'message' listener of the
    page [client], when it is installed. *)
Definition deliver (client : Client) (d : MessageData) (b : Browser) : Browser :=
  let w := snd (onmessage cfg env {| data := Some d; source := Some client |} (worker b)) in
  let new_replies := skipn (length (replies (trace (worker b)))) (replies (trace w)) in
  let p :=
    fold_left
      (fun p '(c, r) =>
         if Nat.eqb c client && message_listener p
         then onWorkerMessage (Some (reply_data r)) p
         else p)
      new_replies (page b) in
  {| page := p; worker := w |}.

(** A click on [deleteBtn], confirmed, with the delivery of the messages it
    causes. *)
Definition delete_round_trip (client : Client) (b : Browser) : Browser :=
  let p := onDeleteClick nav true (page b) in
  let sent := skipn (length (posted (page b))) (posted p) in
  fold_left (fun b d => deliver client d b) sent {| page := p; worker := worker b |}.

End PageTasks.

(** A string without the character '{'. *)
Fixpoint no_brace (s : string) : Prop :=
  match s with
  | EmptyString => True
  | String c s' => c <> "{"%char /\ no_brace s'
  end.

(** The reply of the worker to a [deleteCache] command. *)
Definition delete_reply (cfg : Config) (env : Env) : Reply :=
  match storage_fault env (TILE_CACHE_NAME cfg) with
  | None => cacheDeleted
  | Some e => cacheDeleteFailed (message e)
  end.

(** The request that [fetch(u)] of the page makes. *)
Definition page_request (u : string) : Request :=
  {| url := u; mode := "cors"; destination := "" |}.

(** The world of the worker after its fetch listener has answered the
    requests of the page for the URLs of [l], in order. *)
Definition served (cfg : Config) (env : Env) (l : list string) (w : World) : World :=
  fold_left (fun w u => snd (onfetch cfg env (page_request u) w)) l w.

(** Two states of the page with the same buttons, listener, dialogs, posted
    messages and pending promises. *)
Definition same_controls (p p' : Page) : Prop :=
  downloadBtn_disabled p' = downloadBtn_disabled p
  /\ deleteBtn_disabled p' = deleteBtn_disabled p
  /\ message_listener p' = message_listener p
  /\ confirms p' = confirms p
  /\ posted p' = posted p
  /\ pending p' = pending p.

(** The status line at the end of a download of [n] tiles. *)
Definition download_complete_status (n : nat) : string :=
  "ステータス: " +:+ ("ダウンロード完了: " +:+ Number_toString (Z.of_nat n)
                     +:+ " / " +:+ Number_toString (Z.of_nat n)
                     +:+ " 枚のタイルを処理しました。").

(** A browser with service workers and the Cache API, whose page is
    controlled by the worker. *)
Definition controlled_navigator : Navigator := {|
  serviceWorker_in_navigator := true;
  controller := true;
  caches_in_window := true;
  register_sw := Fulfilled "https://app.example/";
  fetch_TypeError := {| message := "Failed to fetch" |}
|}.

(** The page once the worker is registered and the map initialised on an
    empty tile partition. *)
Definition initial_page : Page := {|
  statusDiv_textContent := "";
  downloadBtn_disabled := false;
  deleteBtn_disabled := true;
  message_listener := true;
  downloadedCount := 0;
  page_console := [];
  confirms := [];
  posted := [];
  pending := []
|}.

(** A stand-in for [getTileCoordinates] on corners that are given as the
    tile they fall in at zoom 0: the tile at zoom [z] is the corner scaled by
    2^z. *)
Definition corner_tiles (corner : Z * Z) (z : Z) : Tile.t :=
  {| Tile.x := fst corner * 2 ^ z; Tile.y := snd corner * 2 ^ z; Tile.z := z |}.

Definition scenario_bounds : Bounds (Z * Z) :=
  {| getNorthWest := (1, 1)%Z; getSouthEast := (2, 3)%Z |}.

(** A storage that refuses to delete. *)
Definition failing_storage_env : Env := {|
  origin := "https://app.example";
  network := fun u => NetOk (browser_answer "https://app.example" u);
  storage_fault := fun _ => Some {| message := "QuotaExceededError" |}
|}.

(** ** The string tests on concrete URLs *)

Example startsWith_tile_prefix :
  startsWith "https://tile.openstreetmap.org/5/10/12.png" (TILE_URL_PATTERN sw_config) = true
  /\ startsWith "https://app.example/index.html" (TILE_URL_PATTERN sw_config) = false
  /\ startsWith "abc" "" = true
  /\ startsWith "ab" "abc" = false.
Proof. repeat split. Qed.

Example endsWith_suffix :
  endsWith "https://app.example/style.css" "/style.css" = true
  /\ endsWith "https://cdn.example/theme/style.css" "/style.css" = true
  /\ endsWith "https://app.example/style.css?v=2" "/style.css" = false
  /\ endsWith "abc" "" = true
  /\ endsWith "bc" "abc" = false.
Proof. repeat split. Qed.

(** Requests that fall through every test of [isAppShellRequest], and one
    that is kept by the same-origin test. *)
Example isAppShellRequest_cases :
  let env := {| origin := "https://app.example";
                network := fun _ => NetFail {| message := "offline" |};
                storage_fault := fun _ => None |} in
  isAppShellRequest sw_config env
    {| url := "https://api.example/v1/places"; mode := "cors"; destination := "" |} = false
  /\ isAppShellRequest sw_config env
       {| url := "https://app.example/beacon"; mode := "cors"; destination := "" |} = false
  /\ isAppShellRequest sw_config env
       {| url := "https://app.example/img/logo.png"; mode := "no-cors"; destination := "image" |} = true
  /\ isAppShellRequest sw_config env
       {| url := "https://api.example/v1/places"; mode := "navigate"; destination := "document" |} = true.
Proof. repeat split. Qed.

(** A URL under the tile prefix goes to the tile partition, whatever the
    request's mode. *)
Lemma onfetch_tile (cfg : Config) (env : Env) (request : Request) :
  startsWith (url request) (TILE_URL_PATTERN cfg) = true ->
  onfetch cfg env request = cacheFirstThenNetwork env request (TILE_CACHE_NAME cfg).
Proof. intros H. unfold onfetch. rewrite H. reflexivity. Qed.

(** ** Basic facts about the state *)

Lemma network_calls_app (t1 t2 : list Effect) :
  network_calls (t1 ++ t2) = network_calls t1 ++ network_calls t2.
Proof.
  induction t1 as [|e t1 IH]; [reflexivity|].
  destruct e; simpl; rewrite IH; reflexivity.
Qed.

Lemma replies_app (t1 t2 : list Effect) :
  replies (t1 ++ t2) = replies t1 ++ replies t2.
Proof.
  induction t1 as [|e t1 IH]; [reflexivity|].
  destruct e; simpl; rewrite IH; reflexivity.
Qed.

Lemma entries_present (w : World) (name u : string) (s : Snapshot) :
  entries w name !! u = Some s -> exists c, caches w !! name = Some c /\ c !! u = Some s.
Proof.
  unfold entries. destruct (caches w !! name) as [c|] eqn:E.
  - intros H. exists c. split; [reflexivity | exact H].
  - rewrite lookup_empty. discriminate.
Qed.

(** Opening a partition never changes the entries of any partition. *)
Lemma caches_open_entries (name n : string) (w : World) :
  entries (snd (caches_open name w)) n = entries w n.
Proof.
  unfold caches_open, entries.
  destruct (caches w !! name) as [c|] eqn:E; simpl; [reflexivity|].
  destruct (decide (name = n)) as [->|Hne].
  - rewrite lookup_insert_eq, E. reflexivity.
  - rewrite lookup_insert_ne by exact Hne. reflexivity.
Qed.

Lemma caches_open_fst (name : string) (w : World) :
  fst (caches_open name w) = Fulfilled name.
Proof. unfold caches_open. destruct (caches w !! name); reflexivity. Qed.

Lemma caches_open_heap_trace (name : string) (w : World) :
  heap (snd (caches_open name w)) = heap w /\ trace (snd (caches_open name w)) = trace w.
Proof. unfold caches_open. destruct (caches w !! name); split; reflexivity. Qed.

Lemma caches_open_present (name : string) (w : World) :
  is_Some (caches (snd (caches_open name w)) !! name).
Proof.
  unfold caches_open. destruct (caches w !! name) as [c|] eqn:E; simpl.
  - rewrite E. eauto.
  - rewrite lookup_insert_eq. eauto.
Qed.

(** On a miss, [cacheFirstThenNetwork] is its network branch run in the world
    where the partition has been opened. *)
Lemma cacheFirstThenNetwork_miss (env : Env) (request : Request) (cacheName : string) (w : World) :
  entries w cacheName !! url request = None ->
  cacheFirstThenNetwork env request cacheName w =
  catch
    (networkResponse <- fetch env (url request) ;;
     o <- deref networkResponse ;;
     match o with
     | Some o =>
         if Nat.eqb (status (content o)) 200 && String.eqb (type (content o)) "basic"
         then
           responseToCache <- clone networkResponse ;;
           detached (cache_put cacheName (url request) responseToCache)
         else resolve tt
     | None => resolve tt
     end ;;;
     resolve networkResponse)
    (fun error =>
       console warn ["Fetch failed; network error or offline:"; message error] ;;;
       reject error)
    (snd (caches_open cacheName w)).
Proof.
  intros Hmiss. unfold cacheFirstThenNetwork at 1. unfold bind at 1.
  pose proof (caches_open_fst cacheName w) as Hf.
  pose proof (caches_open_entries cacheName cacheName w) as He.
  destruct (caches_open cacheName w) as [r w1]. simpl in Hf, He |- *. subst r.
  unfold bind at 1. unfold cache_match. rewrite He, Hmiss. reflexivity.
Qed.

(** ** The cache strategy: [cacheFirstThenNetwork] *)

(** C1. Cache-first: when the request is stored in partition [P],
    [cacheFirstThenNetwork] is fulfilled with a response whose content is the
    stored snapshot; nothing is added to the trace (so no network call is
    made), the cache storage is left as it was, and the outcome is the same
    whatever the network would answer (no freshness check). *)
Theorem cache_hit_served_from_cache
    (env : Env) (request : Request) (P : string) (w : World) (s : Snapshot) :
  entries w P !! url request = Some s ->
  exists r w',
    cacheFirstThenNetwork env request P w = (Fulfilled r, w')
    /\ heap w' !! r = Some {| content := s; bodyUsed := false |}
    /\ caches w' = caches w
    /\ trace w' = trace w
    /\ network_calls (trace w') = network_calls (trace w)
    /\ forall env', cacheFirstThenNetwork env' request P w = (Fulfilled r, w').
Proof.
  intros Hhit.
  destruct (entries_present _ _ _ _ Hhit) as (c & Hc & _).
  exists (length (heap w)),
    (set_heap (fun h => h ++ [{| content := s; bodyUsed := false |}]) w).
  assert (Hrun : forall e, cacheFirstThenNetwork e request P w =
            (Fulfilled (length (heap w)),
             set_heap (fun h => h ++ [{| content := s; bodyUsed := false |}]) w)).
  { intros e. unfold cacheFirstThenNetwork, bind, caches_open, cache_match.
    rewrite Hc, Hhit. reflexivity. }
  split; [apply Hrun|]. split.
  - simpl. rewrite lookup_app_r by lia. rewrite Nat.sub_diag. reflexivity.
  - repeat split; try reflexivity. apply Hrun.
Qed.

Lemma cache_hit_served_from_cache_witness :
  let env := {| origin := "https://app.example";
                network := fun _ => NetFail {| message := "offline" |};
                storage_fault := fun _ => None |} in
  let s := {| status := 200; type := "basic"; body := "png" |} in
  let request := {| url := "https://tile.openstreetmap.org/5/10/12.png";
                    mode := "no-cors"; destination := "image" |} in
  let w := {| caches := {[ "offline-map-tiles-v1" := {[ url request := s ]} ]};
              heap := []; trace := [] |} in
  exists r w',
    cacheFirstThenNetwork env request "offline-map-tiles-v1" w = (Fulfilled r, w')
    /\ heap w' !! r = Some {| content := s; bodyUsed := false |}
    /\ caches w' = caches w
    /\ trace w' = trace w
    /\ network_calls (trace w') = network_calls (trace w)
    /\ forall env', cacheFirstThenNetwork env' request "offline-map-tiles-v1" w = (Fulfilled r, w').
Proof.
  intros env s request w.
  apply (cache_hit_served_from_cache env request "offline-map-tiles-v1" w s).
  vm_compute. reflexivity.
Defined.

(** What the network branch does once the fetch has answered with [s]. *)
Lemma fetch_answers (env : Env) (u : string) (s : Snapshot) (w : World) :
  network env u = NetOk s ->
  fetch env u w =
  (Fulfilled (length (heap w)),
   set_heap (fun h => h ++ [{| content := s; bodyUsed := false |}]) (emit (Fetched u) w)).
Proof. intros H. unfold fetch. rewrite H. reflexivity. Qed.

Lemma fetch_fails (env : Env) (u : string) (e : Error) (w : World) :
  network env u = NetFail e ->
  fetch env u w = (Rejected e, emit (Fetched u) w).
Proof. intros H. unfold fetch. rewrite H. reflexivity. Qed.

Lemma lookup_snoc_last {A} (l : list A) (x : A) : (l ++ [x]) !! length l = Some x.
Proof. rewrite lookup_app_r by lia. rewrite Nat.sub_diag. reflexivity. Qed.

Lemma lookup_snoc2_first {A} (l : list A) (x y : A) : ((l ++ [x]) ++ [y]) !! length l = Some x.
Proof.
  rewrite lookup_app_l by (rewrite length_app; simpl; lia). apply lookup_snoc_last.
Qed.

(** C2. Populate on miss: when the request is not in partition [P] and the
    network answers with status 200 and type 'basic', [cacheFirstThenNetwork]
    is fulfilled with the network response [r], whose body is still unread;
    the partition then holds, for the request, a snapshot equal to the content
    of [r]; what was stored is the clone (the next object, [S r]), whose body
    the store consumed; exactly one network call was made. *)
Theorem miss_populates_partition
    (env : Env) (request : Request) (P : string) (w : World) (s : Snapshot) :
  entries w P !! url request = None ->
  network env (url request) = NetOk s ->
  status s = 200 ->
  type s = "basic" ->
  exists r w',
    cacheFirstThenNetwork env request P w = (Fulfilled r, w')
    /\ heap w' !! r = Some {| content := s; bodyUsed := false |}
    /\ heap w' !! S r = Some {| content := s; bodyUsed := true |}
    /\ entries w' P !! url request = Some s
    /\ network_calls (trace w') = network_calls (trace w) ++ [url request].
Proof.
  intros Hmiss Hnet Hst Hty.
  rewrite (cacheFirstThenNetwork_miss env request P w Hmiss).
  destruct (caches_open_heap_trace P w) as [Hh Ht].
  pose proof (caches_open_entries P P w) as He.
  set (w1 := snd (caches_open P w)) in *.
  unfold catch, bind at 1. rewrite (fetch_answers env _ s w1 Hnet).
  unfold bind at 1. unfold bind at 1. unfold deref at 1.
  cbn [heap set_heap emit]. rewrite lookup_snoc_last. cbn [content].
  rewrite Hst, Hty. cbn [Nat.eqb String.eqb Ascii.eqb Bool.eqb andb].
  unfold bind at 1. unfold clone. cbn [heap set_heap emit].
  rewrite lookup_snoc_last. cbn [bodyUsed content new_Response heap set_heap].
  unfold detached, cache_put. cbn [heap set_heap emit caches trace].
  rewrite length_app. cbn [length].
  replace (length (heap w1) + 1) with (length (heap w1 ++ [{| content := s; bodyUsed := false |}]))
    by (rewrite length_app; reflexivity).
  rewrite lookup_snoc_last. cbn [bodyUsed content orb]. rewrite Hst. cbn [Nat.eqb snd].
  unfold resolve. eexists _, _. split; [reflexivity|].
  cbn [heap set_heap set_caches caches trace emit].
  rewrite length_app; cbn [length].
  repeat split.
  - rewrite list_lookup_insert_ne by lia. rewrite Hh. apply lookup_snoc2_first.
  - replace (S (length (heap w1))) with (length (heap w1) + 1) by lia.
    rewrite list_lookup_insert_eq; [reflexivity|].
    rewrite !length_app. simpl. lia.
  - unfold entries at 1. cbn [caches set_caches]. rewrite lookup_insert_eq.
    rewrite lookup_insert_eq. reflexivity.
  - rewrite Ht, network_calls_app. reflexivity.
Qed.

Lemma miss_populates_partition_witness :
  let env := {| origin := "https://app.example";
                network := fun u => NetOk (browser_answer "https://app.example" u);
                storage_fault := fun _ => None |} in
  let request := {| url := "https://app.example/img/logo.png";
                    mode := "no-cors"; destination := "image" |} in
  let s := {| status := 200; type := "basic"; body := url request |} in
  let w := {| caches := ∅; heap := []; trace := [] |} in
  exists r w',
    cacheFirstThenNetwork env request "offline-map-appshell-v1" w = (Fulfilled r, w')
    /\ heap w' !! r = Some {| content := s; bodyUsed := false |}
    /\ heap w' !! S r = Some {| content := s; bodyUsed := true |}
    /\ entries w' "offline-map-appshell-v1" !! url request = Some s
    /\ network_calls (trace w') = network_calls (trace w) ++ [url request].
Proof.
  intros env request s w.
  apply (miss_populates_partition env request "offline-map-appshell-v1" w s);
    vm_compute; reflexivity.
Defined.

(** The storage test of line 102 fails exactly for a status other than 200 or
    a type other than 'basic'. *)
Lemma not_eligible (s : Snapshot) :
  status s <> 200 \/ type s <> "basic" ->
  Nat.eqb (status s) 200 && String.eqb (type s) "basic" = false.
Proof.
  intros [H|H].
  - apply Nat.eqb_neq in H. rewrite H. reflexivity.
  - apply String.eqb_neq in H. rewrite H. apply andb_false_r.
Qed.

(** C3. No storage of an ineligible response: when the request is not in
    partition [P] and the network answers with a status other than 200 or a
    type other than 'basic', [cacheFirstThenNetwork] is fulfilled with the
    network response, its body unread; the entries of every partition are
    what they were ([caches.open] may have created [P], empty), and [P]
    holds no entry for the request. *)
Theorem ineligible_response_not_stored
    (env : Env) (request : Request) (P : string) (w : World) (s : Snapshot) :
  entries w P !! url request = None ->
  network env (url request) = NetOk s ->
  status s <> 200 \/ type s <> "basic" ->
  exists r w',
    cacheFirstThenNetwork env request P w = (Fulfilled r, w')
    /\ heap w' !! r = Some {| content := s; bodyUsed := false |}
    /\ (forall n, entries w' n = entries w n)
    /\ entries w' P !! url request = None
    /\ network_calls (trace w') = network_calls (trace w) ++ [url request].
Proof.
  intros Hmiss Hnet Hbad.
  rewrite (cacheFirstThenNetwork_miss env request P w Hmiss).
  destruct (caches_open_heap_trace P w) as [Hh Ht].
  pose proof (caches_open_entries P) as He.
  set (w1 := snd (caches_open P w)) in *.
  unfold catch, bind at 1. rewrite (fetch_answers env _ s w1 Hnet).
  unfold bind at 1. unfold bind at 1. unfold deref at 1.
  cbn [heap set_heap emit]. rewrite lookup_snoc_last. cbn [content].
  rewrite (not_eligible s Hbad). unfold resolve.
  eexists _, _. split; [reflexivity|].
  repeat split.
  - cbn [heap set_heap emit]. apply lookup_snoc_last.
  - intros n. rewrite <- (He n w). reflexivity.
  - rewrite <- Hmiss, <- (He P w). reflexivity.
  - cbn [trace set_heap emit]. rewrite Ht, network_calls_app. reflexivity.
Qed.

Lemma ineligible_response_not_stored_witness :
  let env := {| origin := "https://app.example";
                network := fun u => NetOk {| status := 0; type := "opaque"; body := "" |};
                storage_fault := fun _ => None |} in
  let request := {| url := "https://unpkg.com/leaflet@1.9.4/dist/images/marker-icon.png";
                    mode := "no-cors"; destination := "image" |} in
  let s := {| status := 0; type := "opaque"; body := "" |} in
  let w := {| caches := {[ "offline-map-appshell-v1" := ∅ ]}; heap := []; trace := [] |} in
  exists r w',
    cacheFirstThenNetwork env request "offline-map-appshell-v1" w = (Fulfilled r, w')
    /\ heap w' !! r = Some {| content := s; bodyUsed := false |}
    /\ (forall n, entries w' n = entries w n)
    /\ entries w' "offline-map-appshell-v1" !! url request = None
    /\ network_calls (trace w') = network_calls (trace w) ++ [url request].
Proof.
  intros env request s w.
  apply (ineligible_response_not_stored env request "offline-map-appshell-v1" w s).
  - vm_compute. reflexivity.
  - reflexivity.
  - left. simpl. lia.
Defined.

(** C4. Network failure: when the request is not in partition [P] and the
    fetch fails with error [e], [cacheFirstThenNetwork] is rejected with that
    same [e]; no response object is created, the entries of every partition
    are what they were ([caches.open] may have created [P], empty), and [P]
    holds no entry for the request. *)
Theorem fetch_failure_propagates
    (env : Env) (request : Request) (P : string) (w : World) (e : Error) :
  entries w P !! url request = None ->
  network env (url request) = NetFail e ->
  exists w',
    cacheFirstThenNetwork env request P w = (Rejected e, w')
    /\ heap w' = heap w
    /\ (forall n, entries w' n = entries w n)
    /\ entries w' P !! url request = None
    /\ trace w' = trace w ++ [Fetched (url request);
                              Console warn ["Fetch failed; network error or offline:"; message e]].
Proof.
  intros Hmiss Hnet.
  rewrite (cacheFirstThenNetwork_miss env request P w Hmiss).
  destruct (caches_open_heap_trace P w) as [Hh Ht].
  pose proof (caches_open_entries P) as He.
  set (w1 := snd (caches_open P w)) in *.
  unfold catch, bind at 1. rewrite (fetch_fails env _ e w1 Hnet).
  unfold bind, console, reject.
  eexists. split; [reflexivity|].
  repeat split.
  - exact Hh.
  - intros n. rewrite <- (He n w). reflexivity.
  - rewrite <- Hmiss, <- (He P w). reflexivity.
  - cbn [trace emit]. rewrite Ht, <- app_assoc. reflexivity.
Qed.

Lemma fetch_failure_propagates_witness :
  let e := {| message := "Failed to fetch" |} in
  let env := {| origin := "https://app.example";
                network := fun _ => NetFail e;
                storage_fault := fun _ => None |} in
  let request := {| url := "https://tile.openstreetmap.org/5/10/12.png";
                    mode := "no-cors"; destination := "image" |} in
  let w := {| caches := ∅; heap := []; trace := [] |} in
  exists w',
    cacheFirstThenNetwork env request "offline-map-tiles-v1" w = (Rejected e, w')
    /\ heap w' = heap w
    /\ (forall n, entries w' n = entries w n)
    /\ entries w' "offline-map-tiles-v1" !! url request = None
    /\ trace w' = trace w ++ [Fetched (url request);
                              Console warn ["Fetch failed; network error or offline:"; message e]].
Proof.
  intros e env request w.
  apply (fetch_failure_propagates env request "offline-map-tiles-v1" w e);
    vm_compute; reflexivity.
Defined.

(** ** The lifecycle: activate *)

(** The two class prefixes exclude each other. *)
Lemma appshell_prefix_not_tiles (n : string) :
  startsWith n "offline-map-appshell-" = true ->
  startsWith n "offline-map-tiles-" = false.
Proof.
  unfold startsWith.
  do 12 (destruct n as [|c n]; [discriminate|];
         cbn [String.prefix];
         match goal with
         | |- context [ascii_dec ?a c] => destruct (ascii_dec a c) as [<-|]; [|discriminate]
         end).
  destruct n as [|c n]; [discriminate|].
  cbn [String.prefix]. destruct (ascii_dec "a" c) as [<-|]; [|discriminate].
  reflexivity.
Qed.

Lemma live_not_old (cfg : Config) :
  generations cfg ->
  is_old_cache cfg (APP_SHELL_CACHE_NAME cfg) = false
  /\ is_old_cache cfg (TILE_CACHE_NAME cfg) = false.
Proof.
  intros [Ha Ht]. unfold is_old_cache. split.
  - rewrite String.eqb_refl, (appshell_prefix_not_tiles _ Ha), andb_false_r. reflexivity.
  - rewrite String.eqb_refl, andb_false_r, orb_false_r.
    destruct (startsWith (TILE_CACHE_NAME cfg) "offline-map-appshell-") eqn:E; [|reflexivity].
    rewrite (appshell_prefix_not_tiles _ E) in Ht. discriminate.
Qed.

Lemma activate_unfold (cfg : Config) (env : Env) (w : World) :
  activate cfg env w =
  (sweep cfg env (elements (dom (caches w))) ;;; clients_claim)
    (emit (Console log ["Service Worker: Activate"]) w).
Proof. reflexivity. Qed.

Lemma delete_if_old_spec (cfg : Config) (env : Env) (n : string) (w : World) :
  forall r1 w1,
    delete_if_old cfg env n w = (r1, w1) ->
    (forall k, caches w1 !! k =
          if is_old_cache cfg n && bool_decide (storage_fault env n = None) && String.eqb n k
          then None else caches w !! k)
    /\ ((exists a, r1 = Fulfilled a) ->
        is_old_cache cfg n = true -> storage_fault env n = None).
Proof.
  intros r1 w1. unfold delete_if_old.
  destruct (is_old_cache cfg n) eqn:Hold.
  - unfold bind, console, caches_delete. cbn [emit caches].
    destruct (storage_fault env n) as [e|] eqn:Hf.
    + intros H; inversion H; subst. split.
      * intros k. reflexivity.
      * intros [a Ha]; discriminate.
    + destruct (caches w !! n) as [c|] eqn:Hc.
      * intros H; inversion H; subst. split; [|reflexivity].
        intros k. cbn [caches set_caches emit andb].
        rewrite bool_decide_eq_true_2 by reflexivity. cbn [andb].
        destruct (String.eqb_spec n k) as [->|Hne].
        -- apply lookup_delete_eq.
        -- apply lookup_delete_ne. exact Hne.
      * intros H; inversion H; subst. split; [|reflexivity].
        intros k. cbn [caches emit andb].
        rewrite bool_decide_eq_true_2 by reflexivity. cbn [andb].
        destruct (String.eqb_spec n k) as [->|Hne]; [exact Hc | reflexivity].
  - intros H; inversion H; subst. split.
    + intros k. reflexivity.
    + intros _ H0. discriminate.
Qed.

(** One step of the sweep. *)
Lemma sweep_cons (cfg : Config) (env : Env) (n : string) (l : list string) (w : World) :
  exists r1 w1,
    sweep cfg env (n :: l) w =
      (let (rs, w2) := sweep cfg env l w1 in
       (match r1, rs with
        | Rejected e, _ => Rejected e
        | Fulfilled _, Rejected e => Rejected e
        | Fulfilled a, Fulfilled l => Fulfilled (a :: l)
        end, w2))
    /\ (forall k, caches w1 !! k =
          if is_old_cache cfg n && bool_decide (storage_fault env n = None) && String.eqb n k
          then None else caches w !! k)
    /\ ((exists a, r1 = Fulfilled a) ->
        is_old_cache cfg n = true -> storage_fault env n = None).
Proof.
  unfold sweep at 1. cbn [map Promise_all]. fold (sweep cfg env l).
  destruct (delete_if_old cfg env n w) as [r1 w1] eqn:E.
  exists r1, w1. split; [reflexivity|].
  apply (delete_if_old_spec cfg env n w r1 w1 E).
Qed.

(** What the sweep leaves in the cache storage, and when it is fulfilled. *)
Lemma sweep_spec (cfg : Config) (env : Env) (l : list string) :
  forall w r w',
    sweep cfg env l w = (r, w') ->
    (forall k, is_old_cache cfg k = false -> caches w' !! k = caches w !! k)
    /\ (forall k, caches w !! k = None -> caches w' !! k = None)
    /\ ((exists a, r = Fulfilled a) ->
        forall k, k ∈ l -> is_old_cache cfg k = true ->
                  storage_fault env k = None /\ caches w' !! k = None).
Proof.
  induction l as [|n l IH]; intros w r w' Hrun.
  - inversion Hrun; subst. split; [|split]; auto.
    intros _ k Hk. inversion Hk.
  - destruct (sweep_cons cfg env n l w) as (r1 & w1 & Heq & Hc1 & Hf1).
    rewrite Heq in Hrun. clear Heq.
    destruct (sweep cfg env l w1) as [rs w2] eqn:Hrest.
    destruct (IH w1 rs w2 Hrest) as (IHkeep & IHgone & IHdel).
    inversion Hrun; subst w'. clear Hrun. split; [|split].
    + intros k Hk. rewrite (IHkeep k Hk), Hc1.
      destruct (String.eqb_spec n k) as [->|Hne].
      * rewrite Hk. reflexivity.
      * rewrite andb_false_r. reflexivity.
    + intros k Hk. apply IHgone. rewrite Hc1, Hk.
      destruct (_ && _ && _); reflexivity.
    + intros [a Ha] k Hin Hold.
      assert (Hr1 : exists a1, r1 = Fulfilled a1).
      { destruct r1; [eauto|]. subst r. discriminate. }
      assert (Hrs : exists a2, rs = Fulfilled a2).
      { destruct r1; [|subst r; discriminate]. destruct rs; [eauto|]. subst r. discriminate. }
      apply elem_of_cons in Hin. destruct Hin as [->|Hk].
      * pose proof (Hf1 Hr1 Hold) as Hnf. split; [exact Hnf|].
        apply IHgone. rewrite Hc1, Hold, String.eqb_refl.
        rewrite bool_decide_eq_true_2 by exact Hnf. reflexivity.
      * apply (IHdel Hrs k Hk Hold).
Qed.

Lemma is_old_cache_true (cfg : Config) (n : string) :
  old_generation cfg n -> is_old_cache cfg n = true.
Proof.
  unfold old_generation, is_old_cache.
  intros [[Hp Hn]|[Hp Hn]]; rewrite Hp; apply String.eqb_neq in Hn; rewrite Hn.
  - reflexivity.
  - apply orb_true_r.
Qed.

(** A fulfilled activation is a fulfilled sweep over the existing partitions,
    and the cache storage it leaves is the one the sweep leaves. *)
Lemma activate_fulfilled (cfg : Config) (env : Env) (w w' : World) :
  activate cfg env w = (Fulfilled tt, w') ->
  exists rs ws,
    sweep cfg env (elements (dom (caches w)))
      (emit (Console log ["Service Worker: Activate"]) w) = (Fulfilled rs, ws)
    /\ caches w' = caches ws.
Proof.
  rewrite activate_unfold. unfold bind at 1.
  destruct (sweep cfg env _ _) as [[rs|e] ws].
  - unfold clients_claim. intros H; inversion H; subst. eauto.
  - discriminate.
Qed.

(** What a completed activation leaves: the partitions the test of lines
    54-55 selects are gone, the others are what they were. *)
Lemma activate_spec (cfg : Config) (env : Env) (w w' : World) :
  activate cfg env w = (Fulfilled tt, w') ->
  (forall k, is_old_cache cfg k = true -> caches w' !! k = None)
  /\ (forall k, is_old_cache cfg k = false -> caches w' !! k = caches w !! k).
Proof.
  intros Hrun.
  destruct (activate_fulfilled cfg env w w' Hrun) as (rs & ws & Hsweep & Hcaches).
  destruct (sweep_spec cfg env _ _ _ _ Hsweep) as (Hkeep & Hgone & Hdel).
  rewrite Hcaches. split.
  - intros k Hold.
    destruct (caches w !! k) as [c|] eqn:Hc.
    + apply (Hdel ltac:(eauto) k); [|exact Hold].
      apply elem_of_elements, elem_of_dom. rewrite Hc. eauto.
    + apply Hgone. exact Hc.
  - intros k Hk. apply (Hkeep _ Hk).
Qed.

(** C5. Generational eviction: after an activation that completes, no
    partition exists whose name starts with a class prefix and is not that
    class's live name; the live partitions of both classes are exactly what
    they were (present or not, same entries). *)
Theorem activate_evicts_old_generations (cfg : Config) (env : Env) (w w' : World) :
  generations cfg ->
  activate cfg env w = (Fulfilled tt, w') ->
  (forall n, old_generation cfg n -> caches w' !! n = None)
  /\ caches w' !! APP_SHELL_CACHE_NAME cfg = caches w !! APP_SHELL_CACHE_NAME cfg
  /\ caches w' !! TILE_CACHE_NAME cfg = caches w !! TILE_CACHE_NAME cfg.
Proof.
  intros Hgen Hrun.
  destruct (activate_spec cfg env w w' Hrun) as [Hgone Hkeep].
  destruct (live_not_old cfg Hgen) as [Happ Htile].
  split; [|split].
  - intros n Hold. apply Hgone, is_old_cache_true, Hold.
  - apply (Hkeep _ Happ).
  - apply (Hkeep _ Htile).
Qed.

Lemma activate_evicts_old_generations_witness :
  let env := {| origin := "https://app.example";
                network := fun _ => NetFail {| message := "offline" |};
                storage_fault := fun _ => None |} in
  let tile := {| status := 200; type := "basic"; body := "png" |} in
  let w := {| caches := {[ "offline-map-appshell-v0" := ∅;
                           "offline-map-appshell-v1" := {[ "https://app.example/" := tile ]};
                           "offline-map-tiles-v0" := {[ "https://tile.openstreetmap.org/1/1/1.png" := tile ]};
                           "offline-map-tiles-v1" := {[ "https://tile.openstreetmap.org/2/2/2.png" := tile ]};
                           "unrelated" := ∅ ]};
              heap := []; trace := [] |} in
  let w' := snd (activate sw_config env w) in
  (forall n, old_generation sw_config n -> caches w' !! n = None)
  /\ caches w' !! APP_SHELL_CACHE_NAME sw_config = caches w !! APP_SHELL_CACHE_NAME sw_config
  /\ caches w' !! TILE_CACHE_NAME sw_config = caches w !! TILE_CACHE_NAME sw_config.
Proof.
  intros env tile w w'.
  apply (activate_evicts_old_generations sw_config env w w').
  - split; reflexivity.
  - vm_compute. reflexivity.
Defined.

(** ** The lifecycle: install *)

Lemma install_unfold (cfg : Config) (env : Env) (w : World) :
  install cfg env w =
  (cache <- caches_open (APP_SHELL_CACHE_NAME cfg) ;;
   console log ["Service Worker: Caching App Shell"] ;;;
   Promise_all (map (cache_asset env cache) (APP_SHELL_FILES cfg)) ;;;
   skipWaiting)
    (emit (Console log ["Service Worker: Install"]) w).
Proof. reflexivity. Qed.

(** Caching one asset never rejects: it stores the asset when it was fetched
    successfully, leaves the storage alone when it was not, and in both cases
    makes its one network call. *)
Lemma cache_asset_spec (env : Env) (cache f : string) (w : World) :
  exists w1,
    cache_asset env cache f w = (Fulfilled tt, w1)
    /\ caches w1 =
       match fetched_asset env f with
       | Some s => <[cache := <[absolute env f := s]> (entries w cache)]> (caches w)
       | None => caches w
       end
    /\ network_calls (trace w1) = network_calls (trace w) ++ [absolute env f].
Proof.
  unfold cache_asset, catch, cache_add, fetched_asset. unfold bind at 1. unfold fetch.
  destruct (network env (absolute env f)) as [s|e] eqn:Hnet.
  - cbn [new_Response]. unfold bind at 1. unfold deref.
    cbn [heap set_heap emit]. rewrite lookup_snoc_last. cbn [content].
    destruct (ok s) eqn:Hok; cbn [andb].
    + unfold cache_put. cbn [heap set_heap emit]. rewrite lookup_snoc_last.
      cbn [bodyUsed content orb].
      destruct (Nat.eqb (status s) 206) eqn:H206; cbn [negb].
      * unfold console. eexists. split; [reflexivity|]. split; [reflexivity|].
        cbn [trace emit set_heap]. rewrite !network_calls_app. cbn.
        rewrite app_nil_r. reflexivity.
      * eexists. split; [reflexivity|]. split; [reflexivity|].
        cbn [trace emit set_heap set_caches]. rewrite network_calls_app. reflexivity.
    + unfold reject, console. eexists. split; [reflexivity|]. split; [reflexivity|].
      cbn [trace emit set_heap]. rewrite !network_calls_app. cbn.
      rewrite app_nil_r. reflexivity.
  - unfold console. eexists. split; [reflexivity|]. split; [reflexivity|].
    cbn [trace emit]. rewrite !network_calls_app. cbn.
    rewrite app_nil_r. reflexivity.
Qed.

(** Caching a list of assets: every asset is attempted, none aborts the
    others, and only the given partition changes. *)
Lemma cache_assets_spec (env : Env) (cache : string) (l : list string) :
  forall w,
    is_Some (caches w !! cache) ->
    exists vs w',
      Promise_all (map (cache_asset env cache) l) w = (Fulfilled vs, w')
      /\ caches w' = <[cache := populated env l (entries w cache)]> (caches w)
      /\ network_calls (trace w') = network_calls (trace w) ++ map (absolute env) l.
Proof.
  induction l as [|f l IH]; intros w [c Hc].
  - exists [], w. split; [reflexivity|]. split.
    + cbn. unfold entries. rewrite Hc. symmetry. apply insert_id. exact Hc.
    + cbn. rewrite app_nil_r. reflexivity.
  - cbn [map Promise_all].
    destruct (cache_asset_spec env cache f w) as (w1 & Hrun & Hcaches & Hcalls).
    rewrite Hrun.
    assert (Hc1 : caches w1 =
              <[cache := populated env [f] (entries w cache)]> (caches w)).
    { rewrite Hcaches. cbn. destruct (fetched_asset env f); [reflexivity|].
      unfold entries. rewrite Hc. symmetry. apply insert_id. exact Hc. }
    assert (He1 : entries w1 cache = populated env [f] (entries w cache)).
    { unfold entries at 1. rewrite Hc1, lookup_insert_eq. reflexivity. }
    destruct (IH w1) as (vs & w' & Hrest & Hcaches' & Hcalls').
    { rewrite Hc1, lookup_insert_eq. eauto. }
    rewrite Hrest. exists (tt :: vs), w'. split; [reflexivity|]. split.
    + rewrite Hcaches', He1, Hc1, insert_insert_eq. reflexivity.
    + rewrite Hcalls', Hcalls, <- app_assoc. reflexivity.
Qed.

Lemma populated_cons (env : Env) (f : string) (l : list string) (c : gmap string Snapshot) :
  populated env (f :: l) c =
  populated env l
    (match fetched_asset env f with
     | Some s => <[absolute env f := s]> c
     | None => c
     end).
Proof. reflexivity. Qed.

(** The snapshot stored for an asset depends on its absolute URL only. *)
Lemma fetched_asset_absolute (env : Env) (f g : string) :
  absolute env f = absolute env g -> fetched_asset env f = fetched_asset env g.
Proof. unfold fetched_asset. intros ->. reflexivity. Qed.

Lemma populated_lookup (env : Env) (l : list string) :
  forall (c : gmap string Snapshot) (u : string) (s : Snapshot),
    populated env l c !! u = Some s <->
    (exists f, f ∈ l /\ absolute env f = u /\ fetched_asset env f = Some s)
    \/ ((forall f, f ∈ l -> absolute env f = u -> fetched_asset env f = None)
        /\ c !! u = Some s).
Proof.
  induction l as [|f l IH]; intros c u s.
  - cbn. split.
    + intros H. right. split; [|exact H]. intros f Hf. inversion Hf.
    + intros [(f & Hf & _)|[_ H]]; [inversion Hf | exact H].
  - rewrite populated_cons, IH. clear IH. split.
    + intros [(g & Hg & Hu & Hs)|[Hnone Hc]].
      * left. exists g. split; [right; exact Hg|]. auto.
      * destruct (fetched_asset env f) as [sf|] eqn:Hf.
        -- destruct (decide (absolute env f = u)) as [Heq|Hne].
           ++ subst u. rewrite lookup_insert_eq in Hc. inversion Hc; subst sf.
              left. exists f. split; [left|]. auto.
           ++ rewrite lookup_insert_ne in Hc by exact Hne.
              right. split; [|exact Hc].
              intros g Hg Hu. apply elem_of_cons in Hg. destruct Hg as [->|Hg].
              ** contradiction.
              ** apply Hnone; assumption.
        -- right. split; [|exact Hc].
           intros g Hg Hu. apply elem_of_cons in Hg. destruct Hg as [->|Hg].
           ** exact Hf.
           ** apply Hnone; assumption.
    + intros [(g & Hg & Hu & Hs)|[Hnone Hc]].
      * destruct (decide (u ∈ absolute env <$> l)) as [Hin|Hno].
        -- apply list_elem_of_fmap in Hin. destruct Hin as (h & Hhu & Hh).
           symmetry in Hhu. left. exists h. split; [exact Hh|]. split; [exact Hhu|].
           rewrite <- Hs. apply fetched_asset_absolute. congruence.
        -- apply elem_of_cons in Hg. destruct Hg as [->|Hg].
           ++ right. split.
              ** intros h Hh Hhu. exfalso. apply Hno.
                 apply list_elem_of_fmap. eauto.
              ** rewrite Hs, <- Hu. apply lookup_insert_eq.
           ++ exfalso. apply Hno. apply list_elem_of_fmap. eauto.
      * right. split.
        -- intros g Hg Hu. apply Hnone; [right; exact Hg | exact Hu].
        -- pose proof (Hnone f ltac:(left) ) as Hf.
           destruct (decide (absolute env f = u)) as [Heq|Hne].
           ++ rewrite (Hf Heq). exact Hc.
           ++ destruct (fetched_asset env f); [|exact Hc].
              rewrite lookup_insert_ne by exact Hne. exact Hc.
Qed.

(** Install is always fulfilled; it leaves the application-shell partition
    in existence, with the fetched assets added to its entries, and touches
    no other partition. *)
Lemma install_spec (cfg : Config) (env : Env) (w : World) :
  exists w',
    install cfg env w = (Fulfilled tt, w')
    /\ caches w' =
       <[APP_SHELL_CACHE_NAME cfg :=
           populated env (APP_SHELL_FILES cfg) (entries w (APP_SHELL_CACHE_NAME cfg))]> (caches w)
    /\ network_calls (trace w') =
       network_calls (trace w) ++ map (absolute env) (APP_SHELL_FILES cfg).
Proof.
  rewrite install_unfold. unfold bind at 1.
  set (w0 := emit (Console log ["Service Worker: Install"]) w).
  pose proof (caches_open_fst (APP_SHELL_CACHE_NAME cfg) w0) as Hf.
  pose proof (caches_open_entries (APP_SHELL_CACHE_NAME cfg) (APP_SHELL_CACHE_NAME cfg) w0) as He.
  pose proof (caches_open_present (APP_SHELL_CACHE_NAME cfg) w0) as Hp.
  destruct (caches_open_heap_trace (APP_SHELL_CACHE_NAME cfg) w0) as [_ Ht].
  assert (Hc : caches (snd (caches_open (APP_SHELL_CACHE_NAME cfg) w0)) =
               <[APP_SHELL_CACHE_NAME cfg := entries w (APP_SHELL_CACHE_NAME cfg)]> (caches w)).
  { unfold caches_open, entries. subst w0. cbn [caches emit].
    destruct (caches w !! APP_SHELL_CACHE_NAME cfg) eqn:E; cbn.
    - symmetry. apply insert_id. exact E.
    - reflexivity. }
  destruct (caches_open (APP_SHELL_CACHE_NAME cfg) w0) as [r w1].
  cbn [fst snd] in *. subst r.
  unfold bind at 1. unfold console at 1. unfold bind at 1.
  set (w2 := emit (Console log ["Service Worker: Caching App Shell"]) w1).
  destruct (cache_assets_spec env (APP_SHELL_CACHE_NAME cfg) (APP_SHELL_FILES cfg) w2 Hp)
    as (vs & w3 & Hrun & Hcaches & Hcalls).
  rewrite Hrun. unfold skipWaiting. eexists. split; [reflexivity|]. split.
  - cbn [caches emit]. rewrite Hcaches. subst w2. cbn [caches emit].
    rewrite Hc, insert_insert_eq.
    replace (entries (emit (Console log ["Service Worker: Caching App Shell"]) w1)
               (APP_SHELL_CACHE_NAME cfg))
      with (entries w1 (APP_SHELL_CACHE_NAME cfg)) by reflexivity.
    rewrite He. reflexivity.
  - cbn [trace emit]. rewrite network_calls_app, Hcalls. subst w2 w0.
    cbn [trace emit]. rewrite network_calls_app, Ht. cbn [trace emit].
    rewrite network_calls_app. cbn. rewrite !app_nil_r. reflexivity.
Qed.

(** C9, as stated, fails: install over an application-shell partition that
    already holds an entry leaves that entry in place, so the partition does
    not contain exactly the successfully fetched assets. *)
Lemma reinstall_keeps_old_entries :
  let w' := snd (install scenario_A_config scenario_A_env used_shell_world) in
  ~ (forall u,
       is_Some (entries w' (APP_SHELL_CACHE_NAME scenario_A_config) !! u) <->
       exists f, In f (APP_SHELL_FILES scenario_A_config)
                 /\ absolute scenario_A_env f = u
                 /\ is_Some (fetched_asset scenario_A_env f)).
Proof.
  intros w' Hexact.
  destruct (proj1 (Hexact "https://app.example/img/logo.png")) as (f & Hf & Habs & _).
  - vm_compute. eauto.
  - destruct Hf as [<-|[<-|[]]]; vm_compute in Habs; discriminate.
Qed.

(** C9, amended. Best-effort population: install is fulfilled whatever
    happens to the individual assets; every URL of the asset list is
    fetched, in order, a failure stopping none of the others; afterwards the
    partition exists and its entries are the successfully fetched assets,
    each with the snapshot the network gave, together with the entries it
    held before that no fetched asset replaces.  On a partition that was
    absent or empty they are exactly the successfully fetched assets. *)
Theorem install_adds_fetched_assets (cfg : Config) (env : Env) (w : World) :
  exists w',
    install cfg env w = (Fulfilled tt, w')
    /\ is_Some (caches w' !! APP_SHELL_CACHE_NAME cfg)
    /\ (forall u s,
          entries w' (APP_SHELL_CACHE_NAME cfg) !! u = Some s <->
          (exists f, f ∈ APP_SHELL_FILES cfg /\ absolute env f = u
                     /\ fetched_asset env f = Some s)
          \/ ((forall f, f ∈ APP_SHELL_FILES cfg -> absolute env f = u ->
                          fetched_asset env f = None)
              /\ entries w (APP_SHELL_CACHE_NAME cfg) !! u = Some s))
    /\ (entries w (APP_SHELL_CACHE_NAME cfg) = ∅ ->
        forall u s,
          entries w' (APP_SHELL_CACHE_NAME cfg) !! u = Some s <->
          exists f, f ∈ APP_SHELL_FILES cfg /\ absolute env f = u
                    /\ fetched_asset env f = Some s)
    /\ network_calls (trace w') =
       network_calls (trace w) ++ map (absolute env) (APP_SHELL_FILES cfg).
Proof.
  destruct (install_spec cfg env w) as (w' & Hrun & Hcaches & Hcalls).
  exists w'. split; [exact Hrun|]. split; [|split; [|split; [|exact Hcalls]]].
  - rewrite Hcaches, lookup_insert_eq. eauto.
  - intros u s. unfold entries at 1. rewrite Hcaches, lookup_insert_eq.
    apply populated_lookup.
  - intros Hfresh u s. unfold entries at 1. rewrite Hcaches, lookup_insert_eq.
    rewrite populated_lookup, Hfresh. split.
    + intros [H|[_ H]]; [exact H|]. rewrite lookup_empty in H. discriminate.
    + intros H. left. exact H.
Qed.

(** Scenario A, run: the partition holds the entry of "/a.html" and nothing
    else, and the failure of "/b.css" was logged. *)
Example scenario_A_run :
  let w' := snd (install scenario_A_config scenario_A_env empty_world) in
  caches w' =
    {[ "offline-map-appshell-v1" :=
         {[ "https://app.example/a.html" :=
              {| status := 200; type := "basic"; body := "https://app.example/a.html" |} ]} ]}
  /\ trace w' =
     [ Console log ["Service Worker: Install"];
       Console log ["Service Worker: Caching App Shell"];
       Fetched "https://app.example/a.html";
       Fetched "https://app.example/b.css";
       Console warn ["Failed to cache /b.css:"; "Failed to fetch"];
       SkipWaiting ].
Proof. split; vm_compute; reflexivity. Qed.

(** ** The control channel *)

(** A [deleteCache] command is always fulfilled.  When the storage deletes,
    the tile partition is gone and the reply is [cacheDeleted]; when the
    storage fails with [e], nothing changes and the reply is
    [cacheDeleteFailed] with the message of [e]. *)
Lemma onmessage_deleteCache_spec (cfg : Config) (env : Env) (event : MessageEvent) (w : World) :
  data event = Some {| action := "deleteCache" |} ->
  exists w',
    onmessage cfg env event w = (Fulfilled tt, w')
    /\ caches w' =
       match storage_fault env (TILE_CACHE_NAME cfg) with
       | None => delete (TILE_CACHE_NAME cfg) (caches w)
       | Some _ => caches w
       end
    /\ replies (trace w') =
       replies (trace w)
       ++ reply_to (source event)
            match storage_fault env (TILE_CACHE_NAME cfg) with
            | None => cacheDeleted
            | Some e => cacheDeleteFailed (message e)
            end.
Proof.
  intros Hdata. unfold onmessage. rewrite Hdata. cbn [action].
  change (String.eqb "deleteCache" "deleteCache") with true. cbn iota.
  unfold bind at 1. unfold console at 1. unfold catch, bind at 1.
  unfold caches_delete. cbn [caches emit].
  destruct (storage_fault env (TILE_CACHE_NAME cfg)) as [e|] eqn:Hfault.
  - unfold bind, console, reply_to.
    destruct (source event) as [client|]; unfold postMessage, resolve;
      (eexists; split; [reflexivity|]; split; [reflexivity|]);
      cbn [trace emit]; rewrite !replies_app; cbn; rewrite ?app_nil_r; reflexivity.
  - destruct (caches w !! TILE_CACHE_NAME cfg) as [c|] eqn:Hc;
      unfold bind, console, reply_to;
      destruct (source event) as [client|]; unfold postMessage, resolve;
      (eexists; split; [reflexivity|]; split;
       [cbn [caches emit set_caches]; try reflexivity;
        symmetry; apply delete_id; exact Hc|]);
      cbn [trace emit set_caches]; rewrite !replies_app; cbn; rewrite ?app_nil_r; reflexivity.
Qed.

(** C7. Idempotent deletion: a [deleteCache] command received while the tile
    partition does not exist (and the storage works) is fulfilled, leaves the
    cache storage as it was, and posts [cacheDeleted] to its sender. *)
Theorem delete_absent_tile_cache_succeeds
    (cfg : Config) (env : Env) (event : MessageEvent) (client : Client) (w : World) :
  data event = Some {| action := "deleteCache" |} ->
  source event = Some client ->
  caches w !! TILE_CACHE_NAME cfg = None ->
  storage_fault env (TILE_CACHE_NAME cfg) = None ->
  exists w',
    onmessage cfg env event w = (Fulfilled tt, w')
    /\ caches w' = caches w
    /\ replies (trace w') = replies (trace w) ++ [(client, cacheDeleted)].
Proof.
  intros Hdata Hsrc Habsent Hfault.
  destruct (onmessage_deleteCache_spec cfg env event w Hdata) as (w' & Hrun & Hc & Hr).
  exists w'. rewrite Hfault in Hc, Hr. rewrite Hsrc in Hr.
  split; [exact Hrun|]. split; [|exact Hr].
  rewrite Hc. apply delete_id. exact Habsent.
Qed.

Lemma delete_absent_tile_cache_succeeds_witness :
  let env := {| origin := "https://app.example";
                network := fun _ => NetFail {| message := "offline" |};
                storage_fault := fun _ => None |} in
  let event := {| data := Some {| action := "deleteCache" |}; source := Some 7 |} in
  let w := {| caches := {[ "offline-map-appshell-v1" := ∅ ]}; heap := []; trace := [] |} in
  exists w',
    onmessage sw_config env event w = (Fulfilled tt, w')
    /\ caches w' = caches w
    /\ replies (trace w') = replies (trace w) ++ [(7, cacheDeleted)].
Proof.
  intros env event w.
  apply (delete_absent_tile_cache_succeeds sw_config env event 7 w);
    vm_compute; reflexivity.
Defined.

(** C8. The command deletes the tile partition only: a [deleteCache] command
    is fulfilled and leaves every partition other than the live tile
    partition, the application-shell partition among them, exactly as it
    was; when the storage deletes, the tile partition is gone and the sender
    is sent [cacheDeleted]; when the storage fails with [e], nothing is
    deleted and the sender is sent [cacheDeleteFailed] with the message of
    [e]. *)
Theorem deleteCache_only_tile_partition
    (cfg : Config) (env : Env) (event : MessageEvent) (w : World) :
  data event = Some {| action := "deleteCache" |} ->
  APP_SHELL_CACHE_NAME cfg <> TILE_CACHE_NAME cfg ->
  exists w',
    onmessage cfg env event w = (Fulfilled tt, w')
    /\ (forall n, n <> TILE_CACHE_NAME cfg -> caches w' !! n = caches w !! n)
    /\ caches w' !! APP_SHELL_CACHE_NAME cfg = caches w !! APP_SHELL_CACHE_NAME cfg
    /\ (storage_fault env (TILE_CACHE_NAME cfg) = None ->
        caches w' !! TILE_CACHE_NAME cfg = None
        /\ replies (trace w') = replies (trace w) ++ reply_to (source event) cacheDeleted)
    /\ (forall e, storage_fault env (TILE_CACHE_NAME cfg) = Some e ->
        caches w' = caches w
        /\ replies (trace w') =
           replies (trace w) ++ reply_to (source event) (cacheDeleteFailed (message e))).
Proof.
  intros Hdata Hne.
  destruct (onmessage_deleteCache_spec cfg env event w Hdata) as (w' & Hrun & Hc & Hr).
  exists w'. split; [exact Hrun|].
  assert (Hother : forall n, n <> TILE_CACHE_NAME cfg -> caches w' !! n = caches w !! n).
  { intros n Hn. rewrite Hc. destruct (storage_fault env (TILE_CACHE_NAME cfg)); [reflexivity|].
    apply lookup_delete_ne. congruence. }
  split; [exact Hother|]. split; [apply Hother; exact Hne|]. split.
  - intros Hfault. rewrite Hfault in Hc, Hr. split; [|exact Hr].
    rewrite Hc. apply lookup_delete_eq.
  - intros e Hfault. rewrite Hfault in Hc, Hr. split; assumption.
Qed.

Lemma deleteCache_only_tile_partition_witness :
  let env := {| origin := "https://app.example";
                network := fun _ => NetFail {| message := "offline" |};
                storage_fault := fun _ => None |} in
  let event := {| data := Some {| action := "deleteCache" |}; source := Some 7 |} in
  let tile := {| status := 200; type := "basic"; body := "png" |} in
  let w := {| caches := {[ "offline-map-appshell-v1" := {[ "https://app.example/" := tile ]};
                           "offline-map-tiles-v1" := {[ "https://tile.openstreetmap.org/2/2/2.png" := tile ]} ]};
              heap := []; trace := [] |} in
  exists w',
    onmessage sw_config env event w = (Fulfilled tt, w')
    /\ (forall n, n <> TILE_CACHE_NAME sw_config -> caches w' !! n = caches w !! n)
    /\ caches w' !! APP_SHELL_CACHE_NAME sw_config = caches w !! APP_SHELL_CACHE_NAME sw_config
    /\ (storage_fault env (TILE_CACHE_NAME sw_config) = None ->
        caches w' !! TILE_CACHE_NAME sw_config = None
        /\ replies (trace w') = replies (trace w) ++ reply_to (source event) cacheDeleted)
    /\ (forall e, storage_fault env (TILE_CACHE_NAME sw_config) = Some e ->
        caches w' = caches w
        /\ replies (trace w') =
           replies (trace w) ++ reply_to (source event) (cacheDeleteFailed (message e))).
Proof.
  intros env event tile w.
  apply (deleteCache_only_tile_partition sw_config env event w).
  - reflexivity.
  - discriminate.
Defined.

(** ** The fetch listener *)

Lemma endsWith_listed (u f : string) (files : list string) :
  In f files -> endsWith u f = true ->
  existsb (fun fileUrl => endsWith u fileUrl) files = true.
Proof. intros Hin He. apply existsb_exists. exists f. split; assumption. Qed.

(** C10. Because "/" is in the asset list and listed files are matched by
    suffix, a request whose URL ends with "/" and does not start with the
    tile prefix is an application-shell request, whatever its origin, mode
    and destination, and the fetch listener answers it with
    [cacheFirstThenNetwork] on the application-shell partition. *)
Theorem trailing_slash_is_app_shell (cfg : Config) (env : Env) (request : Request) :
  In "/" (APP_SHELL_FILES cfg) ->
  endsWith (url request) "/" = true ->
  startsWith (url request) (TILE_URL_PATTERN cfg) = false ->
  isAppShellRequest cfg env request = true
  /\ onfetch cfg env request =
     cacheFirstThenNetwork env request (APP_SHELL_CACHE_NAME cfg).
Proof.
  intros Hin Hslash Htile.
  assert (Happ : isAppShellRequest cfg env request = true).
  { unfold isAppShellRequest. rewrite (endsWith_listed _ _ _ Hin Hslash).
    rewrite orb_true_r. reflexivity. }
  split; [exact Happ|].
  unfold onfetch. rewrite Htile, Happ. reflexivity.
Qed.

Lemma trailing_slash_is_app_shell_witness :
  let env := {| origin := "https://app.example";
                network := fun _ => NetFail {| message := "offline" |};
                storage_fault := fun _ => None |} in
  let request := {| url := "https://tracker.example/collect/"; mode := "cors"; destination := "" |} in
  isAppShellRequest sw_config env request = true
  /\ onfetch sw_config env request =
     cacheFirstThenNetwork env request (APP_SHELL_CACHE_NAME sw_config).
Proof.
  intros env request.
  apply (trailing_slash_is_app_shell sw_config env request).
  - left. reflexivity.
  - reflexivity.
  - reflexivity.
Defined.

(** ** A redeployment that bumps the tile generation *)

(** [cacheFirstThenNetwork] always leaves its partition in existence. *)
Lemma cacheFirstThenNetwork_opens (env : Env) (request : Request) (P : string) (w : World) :
  is_Some (caches (snd (cacheFirstThenNetwork env request P w)) !! P).
Proof.
  destruct (entries w P !! url request) as [s|] eqn:Hlook.
  - destruct (entries_present _ _ _ _ Hlook) as (c & Hc & _).
    unfold cacheFirstThenNetwork, bind, caches_open, cache_match.
    rewrite Hc, Hlook. cbn. rewrite Hc. eauto.
  - rewrite (cacheFirstThenNetwork_miss env request P w Hlook).
    pose proof (caches_open_present P w) as Hp.
    set (w1 := snd (caches_open P w)) in *.
    unfold catch, bind at 1, fetch.
    destruct (network env (url request)) as [s|e].
    + cbn [new_Response]. unfold bind at 1. unfold bind at 1. unfold deref at 1.
      cbn [heap set_heap emit]. rewrite lookup_snoc_last. cbn [content].
      destruct (Nat.eqb (status s) 200 && String.eqb (type s) "basic").
      * unfold bind at 1. unfold clone. cbn [heap set_heap emit].
        rewrite lookup_snoc_last. cbn [bodyUsed content new_Response heap set_heap].
        unfold detached, cache_put. cbn [heap set_heap emit caches trace].
        rewrite length_app. cbn [length].
        replace (length (heap w1) + 1)
          with (length (heap w1 ++ [{| content := s; bodyUsed := false |}]))
          by (rewrite length_app; reflexivity).
        rewrite lookup_snoc_last. cbn [bodyUsed content orb].
        destruct (Nat.eqb (status s) 206); cbn [snd resolve caches set_caches set_heap emit].
        -- exact Hp.
        -- rewrite lookup_insert_eq. eauto.
      * exact Hp.
    + exact Hp.
Qed.

(** C6, as stated, fails: after the second deployment has been installed and
    activated, the old tile partition is gone but the new one does not
    exist. *)
Lemma tiles_v2_absent_after_activate :
  let w' := snd (deploy tiles_v2_config scenario_B_env scenario_B_world) in
  ~ (caches w' !! "offline-map-tiles-v1" = None
     /\ is_Some (caches w' !! "offline-map-tiles-v2")).
Proof.
  intros w' [_ [c Hc]]. vm_compute in Hc. discriminate.
Qed.

(** C6, amended. After the deployment that bumps the tile generation from
    'offline-map-tiles-v1' to 'offline-map-tiles-v2' has been installed and
    activated, the 'offline-map-tiles-v1' partition is absent; neither event
    creates the 'offline-map-tiles-v2' partition (it is as it was before the
    deployment); it exists, possibly empty, as soon as one tile request has
    been served. *)
Theorem tiles_generation_bump (env : Env) (w w' : World) :
  deploy tiles_v2_config env w = (Fulfilled tt, w') ->
  caches w' !! "offline-map-tiles-v1" = None
  /\ caches w' !! "offline-map-tiles-v2" = caches w !! "offline-map-tiles-v2"
  /\ forall request,
       startsWith (url request) (TILE_URL_PATTERN tiles_v2_config) = true ->
       is_Some (caches (snd (onfetch tiles_v2_config env request w'))
                  !! "offline-map-tiles-v2").
Proof.
  unfold deploy, bind.
  destruct (install_spec tiles_v2_config env w) as (w1 & Hinst & Hc1 & _).
  rewrite Hinst. intros Hact.
  destruct (activate_spec tiles_v2_config env w1 w' Hact) as [Hgone Hkeep].
  split; [|split].
  - apply Hgone. reflexivity.
  - rewrite (Hkeep "offline-map-tiles-v2") by reflexivity.
    rewrite Hc1. apply lookup_insert_ne. discriminate.
  - intros request Htile. unfold onfetch. rewrite Htile.
    apply cacheFirstThenNetwork_opens.
Qed.

Lemma tiles_generation_bump_witness :
  let w' := snd (deploy tiles_v2_config scenario_B_env scenario_B_world) in
  caches w' !! "offline-map-tiles-v1" = None
  /\ caches w' !! "offline-map-tiles-v2" = caches scenario_B_world !! "offline-map-tiles-v2"
  /\ forall request,
       startsWith (url request) (TILE_URL_PATTERN tiles_v2_config) = true ->
       is_Some (caches (snd (onfetch tiles_v2_config scenario_B_env request w'))
                  !! "offline-map-tiles-v2").
Proof.
  intros w'.
  apply (tiles_generation_bump scenario_B_env scenario_B_world w').
  vm_compute. reflexivity.
Defined.

(** Scenario B, run: the old generation existed before the second
    deployment; afterwards it is gone and the new generation has not been
    created. *)
Example scenario_B_run :
  let w' := snd (deploy tiles_v2_config scenario_B_env scenario_B_world) in
  is_Some (caches scenario_B_world !! "offline-map-tiles-v1")
  /\ fst (deploy tiles_v2_config scenario_B_env scenario_B_world) = Fulfilled tt
  /\ caches w' !! "offline-map-tiles-v1" = None
  /\ caches w' !! "offline-map-tiles-v2" = None.
Proof.
  split; [|split; [|split]]; vm_compute; eauto.
Qed.

(** ** More on [cacheFirstThenNetwork]: what it stores and what it keeps *)

Lemma caches_open_caches (name : string) (w : World) :
  caches (snd (caches_open name w)) = opened name w.
Proof.
  unfold caches_open, opened, entries.
  destruct (caches w !! name) as [c|] eqn:E; cbn.
  - symmetry. apply insert_id. exact E.
  - reflexivity.
Qed.

Lemma cacheFirstThenNetwork_hit (env : Env) (request : Request) (P : string) (w : World) (s : Snapshot) :
  entries w P !! url request = Some s ->
  cacheFirstThenNetwork env request P w =
  (Fulfilled (length (heap w)),
   set_heap (fun h => h ++ [{| content := s; bodyUsed := false |}]) w).
Proof.
  intros Hhit. destruct (entries_present _ _ _ _ Hhit) as (c & Hc & _).
  unfold cacheFirstThenNetwork, bind, caches_open, cache_match.
  rewrite Hc, Hhit. reflexivity.
Qed.

(** The cache storage that [cacheFirstThenNetwork] leaves, in every case. *)
Lemma cacheFirstThenNetwork_caches (env : Env) (request : Request) (P : string) (w : World) :
  caches (snd (cacheFirstThenNetwork env request P w)) =
  match entries w P !! url request with
  | Some _ => caches w
  | None =>
      match network env (url request) with
      | NetOk s =>
          if eligible s
          then <[P := <[url request := s]> (entries w P)]> (caches w)
          else opened P w
      | NetFail _ => opened P w
      end
  end.
Proof.
  destruct (entries w P !! url request) as [s|] eqn:Hlook.
  - rewrite (cacheFirstThenNetwork_hit env request P w s Hlook). reflexivity.
  - rewrite (cacheFirstThenNetwork_miss env request P w Hlook).
    pose proof (caches_open_caches P w) as Hc.
    pose proof (caches_open_entries P P w) as He.
    set (w1 := snd (caches_open P w)) in *.
    unfold catch, bind at 1, fetch.
    destruct (network env (url request)) as [s|e].
    + cbn [new_Response]. unfold bind at 1. unfold bind at 1. unfold deref at 1.
      cbn [heap set_heap emit]. rewrite lookup_snoc_last. cbn [content].
      fold (eligible s). destruct (eligible s) eqn:Hel.
      * unfold bind at 1. unfold clone. cbn [heap set_heap emit].
        rewrite lookup_snoc_last. cbn [bodyUsed content new_Response heap set_heap].
        unfold detached, cache_put. cbn [heap set_heap emit caches trace].
        rewrite length_app. cbn [length].
        replace (length (heap w1) + 1)
          with (length (heap w1 ++ [{| content := s; bodyUsed := false |}]))
          by (rewrite length_app; reflexivity).
        rewrite lookup_snoc_last. cbn [bodyUsed content orb].
        unfold eligible in Hel. apply andb_prop in Hel. destruct Hel as [Hst _].
        apply Nat.eqb_eq in Hst. rewrite Hst.
        cbn [Nat.eqb snd resolve caches set_caches set_heap emit].
        match goal with
        | |- context [entries (set_heap ?f ?v) P] =>
            change (entries (set_heap f v) P) with (entries w1 P)
        end.
        rewrite He, Hc. unfold opened. apply insert_insert_eq.
      * exact Hc.
    + exact Hc.
Qed.

(** X1. [cacheFirstThenNetwork] works on its own partition only: whatever the
    request and whatever the network answers, every other partition is
    exactly what it was (present or not, same entries). *)
Theorem serve_touches_only_its_partition
    (env : Env) (request : Request) (P n : string) (w : World) :
  n <> P ->
  caches (snd (cacheFirstThenNetwork env request P w)) !! n = caches w !! n.
Proof.
  intros Hne. rewrite cacheFirstThenNetwork_caches.
  destruct (entries w P !! url request); [reflexivity|].
  destruct (network env (url request)) as [s|e]; [destruct (eligible s)|];
    unfold opened; apply lookup_insert_ne; congruence.
Qed.

Lemma serve_touches_only_its_partition_witness :
  let w := {| caches := {[ "offline-map-appshell-v1" :=
                             {[ "https://app.example/" :=
                                  {| status := 200; type := "basic"; body := "html" |} ]} ]};
              heap := []; trace := [] |} in
  caches (snd (cacheFirstThenNetwork scenario_B_env tile_request "offline-map-tiles-v1" w))
    !! "offline-map-appshell-v1"
  = caches w !! "offline-map-appshell-v1".
Proof.
  intros w.
  apply (serve_touches_only_its_partition scenario_B_env tile_request
           "offline-map-tiles-v1" "offline-map-appshell-v1" w).
  discriminate.
Defined.

Lemma cacheFirstThenNetwork_keeps
    (env : Env) (request : Request) (P n u : string) (w : World) (s : Snapshot) :
  entries w n !! u = Some s ->
  entries (snd (cacheFirstThenNetwork env request P w)) n !! u = Some s.
Proof.
  intros Hkept. unfold entries at 1. rewrite cacheFirstThenNetwork_caches.
  destruct (entries w P !! url request) as [s0|] eqn:Hlook; [exact Hkept|].
  assert (Hopen : match opened P w !! n with Some c => c | None => ∅ end !! u = Some s).
  { unfold opened. destruct (decide (P = n)) as [->|Hne].
    - rewrite lookup_insert_eq. exact Hkept.
    - rewrite lookup_insert_ne by exact Hne. exact Hkept. }
  destruct (network env (url request)) as [s1|e]; [destruct (eligible s1)|]; try exact Hopen.
  destruct (decide (P = n)) as [->|Hne].
  - rewrite lookup_insert_eq. destruct (decide (url request = u)) as [Heq|Hneq].
    + rewrite Heq in Hlook. rewrite Hlook in Hkept. discriminate.
    + rewrite lookup_insert_ne by exact Hneq. exact Hkept.
  - rewrite lookup_insert_ne by exact Hne. exact Hkept.
Qed.

(** The fetch listener keeps every stored entry. *)
Lemma onfetch_keeps (cfg : Config) (env : Env) (request : Request) (n u : string)
    (w : World) (s : Snapshot) :
  entries w n !! u = Some s ->
  entries (snd (onfetch cfg env request w)) n !! u = Some s.
Proof.
  intros Hkept. unfold onfetch.
  destruct (startsWith (url request) (TILE_URL_PATTERN cfg));
    [apply cacheFirstThenNetwork_keeps; exact Hkept|].
  destruct (isAppShellRequest cfg env request);
    [apply cacheFirstThenNetwork_keeps; exact Hkept|].
  unfold fetch. destruct (network env (url request)); exact Hkept.
Qed.

(** X2. Stored entries are never replaced or dropped: an entry that any
    partition holds before a call of [cacheFirstThenNetwork], or before the
    fetch listener answers a request, is held with the same snapshot after
    it, whatever the request, the partition served and the answer of the
    network. *)
Theorem serve_keeps_stored_entries
    (cfg : Config) (env : Env) (request : Request) (P n u : string) (w : World) (s : Snapshot) :
  entries w n !! u = Some s ->
  entries (snd (cacheFirstThenNetwork env request P w)) n !! u = Some s
  /\ entries (snd (onfetch cfg env request w)) n !! u = Some s.
Proof.
  intros Hkept. split.
  - apply cacheFirstThenNetwork_keeps. exact Hkept.
  - apply onfetch_keeps. exact Hkept.
Qed.

Lemma serve_keeps_stored_entries_witness :
  let old := {| status := 200; type := "basic"; body := "old tile" |} in
  let w := {| caches := {[ "offline-map-tiles-v1" := {[ url tile_request := old ]} ]};
              heap := []; trace := [] |} in
  entries (snd (cacheFirstThenNetwork scenario_B_env tile_request "offline-map-tiles-v1" w))
    "offline-map-tiles-v1" !! url tile_request = Some old
  /\ entries (snd (onfetch sw_config scenario_B_env tile_request w))
       "offline-map-tiles-v1" !! url tile_request = Some old.
Proof.
  intros old w.
  apply (serve_keeps_stored_entries sw_config scenario_B_env tile_request
           "offline-map-tiles-v1" "offline-map-tiles-v1" (url tile_request) w old).
  vm_compute. reflexivity.
Defined.

(** X3. Populate, then hit: after a miss answered with status 200 and type
    'basic', the same request is served again from the partition, with the
    snapshot the first call stored and without adding anything to the trace,
    whatever the network has become. *)
Theorem second_serve_needs_no_network
    (env env' : Env) (request : Request) (P : string) (w : World) (s : Snapshot) :
  entries w P !! url request = None ->
  network env (url request) = NetOk s ->
  eligible s = true ->
  let w1 := snd (cacheFirstThenNetwork env request P w) in
  exists r w2,
    cacheFirstThenNetwork env' request P w1 = (Fulfilled r, w2)
    /\ heap w2 !! r = Some {| content := s; bodyUsed := false |}
    /\ caches w2 = caches w1
    /\ trace w2 = trace w1.
Proof.
  intros Hmiss Hnet Hel w1.
  assert (Hstored : entries w1 P !! url request = Some s).
  { unfold entries, w1. rewrite cacheFirstThenNetwork_caches, Hmiss, Hnet, Hel.
    rewrite !lookup_insert_eq. reflexivity. }
  rewrite (cacheFirstThenNetwork_hit env' request P w1 s Hstored).
  eexists _, _. split; [reflexivity|]. split; [|split; reflexivity].
  cbn [heap set_heap]. apply lookup_snoc_last.
Qed.

Lemma second_serve_needs_no_network_witness :
  let offline := {| origin := "https://app.example";
                    network := fun _ => NetFail {| message := "offline" |};
                    storage_fault := fun _ => None |} in
  let s := {| status := 200; type := "basic"; body := url logo_request |} in
  let w1 := snd (cacheFirstThenNetwork scenario_B_env logo_request "offline-map-appshell-v1"
                   empty_world) in
  exists r w2,
    cacheFirstThenNetwork offline logo_request "offline-map-appshell-v1" w1 = (Fulfilled r, w2)
    /\ heap w2 !! r = Some {| content := s; bodyUsed := false |}
    /\ caches w2 = caches w1
    /\ trace w2 = trace w1.
Proof.
  intros offline s.
  apply (second_serve_needs_no_network scenario_B_env offline logo_request
           "offline-map-appshell-v1" empty_world s); reflexivity.
Defined.

(** ** More on activate: a deletion that fails *)

Lemma sweep_run_cons (cfg : Config) (env : Env) (n : string) (l : list string) (w : World) :
  sweep cfg env (n :: l) w =
  (let (r1, w1) := delete_if_old cfg env n w in
   let (rs, w2) := sweep cfg env l w1 in
   (match r1, rs with
    | Rejected e, _ => Rejected e
    | Fulfilled _, Rejected e => Rejected e
    | Fulfilled a, Fulfilled l => Fulfilled (a :: l)
    end, w2)).
Proof. reflexivity. Qed.

(** The callback is rejected exactly when it tries a deletion that the
    storage refuses; all it adds to the trace is a console line. *)
Lemma delete_if_old_result (cfg : Config) (env : Env) (n : string) (w : World) :
  ((exists a, fst (delete_if_old cfg env n w) = Fulfilled a) <->
   (is_old_cache cfg n = true -> storage_fault env n = None))
  /\ exists t, trace (snd (delete_if_old cfg env n w)) = trace w ++ t
               /\ ~ In ClientsClaim t.
Proof.
  unfold delete_if_old. destruct (is_old_cache cfg n) eqn:Hold.
  - unfold bind, console, caches_delete. cbn [emit caches].
    destruct (storage_fault env n) as [e|] eqn:Hf.
    + split.
      * split; [intros [a Ha]; discriminate | intros H; specialize (H eq_refl); discriminate].
      * eexists. split; [reflexivity|]. intros [H|[]]. discriminate.
    + destruct (caches w !! n); (split;
        [split; [reflexivity | intros _; eexists; reflexivity]
        | eexists; split; [reflexivity|]; intros [H|[]]; discriminate]).
  - split.
    + split; [intros _ H; discriminate | intros _; eexists; reflexivity].
    + exists []. split; [symmetry; apply app_nil_r | intros []].
Qed.

Lemma sweep_storage (cfg : Config) (env : Env) (l : list string) :
  forall w k,
    caches (snd (sweep cfg env l w)) !! k =
    if bool_decide (k ∈ l) && is_old_cache cfg k && bool_decide (storage_fault env k = None)
    then None else caches w !! k.
Proof.
  induction l as [|n l IH]; intros w k.
  - reflexivity.
  - rewrite sweep_run_cons.
    destruct (delete_if_old cfg env n w) as [r1 w1] eqn:Hone.
    destruct (delete_if_old_spec cfg env n w r1 w1 Hone) as [Hc1 _].
    specialize (IH w1 k). destruct (sweep cfg env l w1) as [rs w2].
    cbn [snd] in *. rewrite IH, Hc1. clear IH Hc1 Hone.
    destruct (String.eqb_spec n k) as [->|Hne].
    + rewrite (bool_decide_eq_true_2 (k ∈ k :: l)) by left.
      destruct (bool_decide (k ∈ l)); cbn [andb];
        destruct (is_old_cache cfg k && bool_decide (storage_fault env k = None));
        reflexivity.
    + rewrite andb_false_r.
      replace (bool_decide (k ∈ n :: l)) with (bool_decide (k ∈ l)); [reflexivity|].
      apply bool_decide_ext. rewrite elem_of_cons. intuition congruence.
Qed.

Lemma sweep_result (cfg : Config) (env : Env) (l : list string) :
  forall w,
    ((exists a, fst (sweep cfg env l w) = Fulfilled a) <->
     (forall k, k ∈ l -> is_old_cache cfg k = true -> storage_fault env k = None))
    /\ exists t, trace (snd (sweep cfg env l w)) = trace w ++ t /\ ~ In ClientsClaim t.
Proof.
  induction l as [|n l IH]; intros w.
  - split.
    + split; [intros _ k Hk; inversion Hk | intros _; eexists; reflexivity].
    + exists []. split; [symmetry; apply app_nil_r | intros []].
  - rewrite sweep_run_cons.
    destruct (delete_if_old_result cfg env n w) as [Hr1 (t1 & Ht1 & Hn1)].
    destruct (delete_if_old cfg env n w) as [r1 w1].
    destruct (IH w1) as [Hrs (t2 & Ht2 & Hn2)]. clear IH.
    destruct (sweep cfg env l w1) as [rs w2]. cbn [fst snd] in *. split.
    + split.
      * intros [a Ha] k Hk Hold. apply elem_of_cons in Hk. destruct Hk as [->|Hk].
        -- apply Hr1; [|exact Hold]. destruct r1; [eauto | discriminate].
        -- apply Hrs; [|exact Hk|exact Hold].
           destruct r1; [|discriminate]. destruct rs; [eauto | discriminate].
      * intros Hall.
        destruct (proj2 Hr1 (Hall n ltac:(left))) as [a1 ->].
        destruct (proj2 Hrs (fun k Hk => Hall k ltac:(right; exact Hk))) as [a2 ->].
        eexists. reflexivity.
    + exists (t1 ++ t2). split.
      * rewrite Ht2, Ht1, app_assoc. reflexivity.
      * intros Hin. apply in_app_or in Hin. tauto.
Qed.

Lemma activate_caches (cfg : Config) (env : Env) (w : World) (k : string) :
  caches (snd (activate cfg env w)) !! k =
  if is_old_cache cfg k && bool_decide (storage_fault env k = None)
  then None else caches w !! k.
Proof.
  rewrite activate_unfold. unfold bind at 1.
  pose proof (sweep_storage cfg env (elements (dom (caches w)))
                (emit (Console log ["Service Worker: Activate"]) w) k) as Hs.
  destruct (sweep cfg env _ _) as [[rs|e] ws]; cbn [snd clients_claim caches emit] in *;
    rewrite Hs; clear Hs;
    (destruct (caches w !! k) as [c|] eqn:Hc;
     [ rewrite bool_decide_eq_true_2
         by (apply elem_of_elements, elem_of_dom; rewrite Hc; eauto);
       reflexivity
     | destruct (_ && _ && _), (_ && _); reflexivity ]).
Qed.

(** X4. The storage after an activation, whatever its outcome: a partition
    that the test of lines 54-55 selects and whose deletion the storage does
    not refuse is gone; every other partition (live, unrelated, or one whose
    deletion failed) is what it was.  A deletion that fails stops none of the
    others. *)
Theorem activate_storage (cfg : Config) (env : Env) (w : World) (k : string) :
  let w' := snd (activate cfg env w) in
  (is_old_cache cfg k = true -> storage_fault env k = None -> caches w' !! k = None)
  /\ (is_old_cache cfg k = false -> caches w' !! k = caches w !! k)
  /\ (is_Some (storage_fault env k) -> caches w' !! k = caches w !! k).
Proof.
  intros w'. unfold w'. rewrite activate_caches. split; [|split].
  - intros Hold Hfault. rewrite Hold, bool_decide_eq_true_2 by exact Hfault. reflexivity.
  - intros Hold. rewrite Hold. reflexivity.
  - intros [e He]. rewrite bool_decide_eq_false_2, andb_false_r; [reflexivity|].
    rewrite He. discriminate.
Qed.

Lemma activate_outcome (cfg : Config) (env : Env) (w : World) :
  fst (activate cfg env w) = Fulfilled tt <->
  (forall k, is_Some (caches w !! k) -> is_old_cache cfg k = true ->
             storage_fault env k = None).
Proof.
  rewrite activate_unfold. unfold bind at 1.
  destruct (sweep_result cfg env (elements (dom (caches w)))
              (emit (Console log ["Service Worker: Activate"]) w)) as [Hres _].
  destruct (sweep cfg env _ _) as [[rs|e] ws]; cbn [fst snd clients_claim] in *.
  - split; [|reflexivity]. intros _ k Hk Hold.
    apply (proj1 Hres ltac:(eauto) k); [|exact Hold].
    apply elem_of_elements, elem_of_dom. exact Hk.
  - split; [discriminate|]. intros Hall.
    destruct (proj2 Hres) as [a Ha]; [|discriminate].
    intros k Hk Hold. apply Hall; [|exact Hold].
    apply elem_of_dom, elem_of_elements. exact Hk.
Qed.

(** X5. An activation is rejected exactly when an existing partition that it
    tries to delete cannot be deleted; it then never calls [clients.claim],
    while a fulfilled activation ends with that call. *)
Theorem activate_rejected_by_failed_deletion (cfg : Config) (env : Env) (w : World) :
  ((exists e, fst (activate cfg env w) = Rejected e) <->
   (exists k, is_Some (caches w !! k) /\ is_old_cache cfg k = true
              /\ is_Some (storage_fault env k)))
  /\ ((exists e, fst (activate cfg env w) = Rejected e) ->
      In ClientsClaim (trace (snd (activate cfg env w))) -> In ClientsClaim (trace w))
  /\ (fst (activate cfg env w) = Fulfilled tt ->
      last (trace (snd (activate cfg env w))) = Some ClientsClaim).
Proof.
  rewrite activate_unfold. unfold bind at 1 2 3 4 5.
  destruct (sweep_result cfg env (elements (dom (caches w)))
              (emit (Console log ["Service Worker: Activate"]) w)) as [Hres (t & Ht & Hnot)].
  destruct (sweep cfg env _ _) as [[rs|e] ws]; cbn [fst snd clients_claim] in *.
  - split; [|split].
    + split; [intros [e He]; discriminate|].
      intros (k & Hk & Hold & [e He]).
      rewrite (proj1 Hres ltac:(eauto) k) in He; [discriminate| |exact Hold].
      apply elem_of_elements, elem_of_dom. exact Hk.
    + intros [e He]. discriminate.
    + intros _. cbn [trace emit]. apply last_snoc.
  - split; [|split].
    + split; [|eauto]. intros _.
      destruct (decide (Exists (fun k => is_old_cache cfg k = true
                                         /\ is_Some (storage_fault env k))
                          (elements (dom (caches w))))) as [Hex|Hno].
      * apply Exists_exists in Hex. destruct Hex as (k & Hk & Hold & Hf).
        exists k. split; [|split; assumption].
        apply elem_of_dom, elem_of_elements. exact Hk.
      * exfalso. destruct (proj2 Hres) as [a Ha]; [|discriminate].
        intros k Hk Hold. destruct (storage_fault env k) eqn:Hf; [|reflexivity].
        exfalso. apply Hno, Exists_exists. exists k. rewrite Hf. eauto.
    + intros _ Hin. rewrite Ht in Hin. cbn [trace emit] in Hin.
      apply in_app_or in Hin. destruct Hin as [Hin|Hin]; [|contradiction].
      apply in_app_or in Hin. destruct Hin as [Hin|[Hin|[]]]; [exact Hin | discriminate].
    + discriminate.
Qed.

(** X6. Activating again changes nothing: the storage after a second
    activation is the storage after the first, and a second activation after
    a fulfilled one is fulfilled. *)
Theorem activate_twice (cfg : Config) (env : Env) (w : World) :
  let w1 := snd (activate cfg env w) in
  caches (snd (activate cfg env w1)) = caches w1
  /\ (fst (activate cfg env w) = Fulfilled tt -> fst (activate cfg env w1) = Fulfilled tt).
Proof.
  intros w1. split.
  - apply map_eq. intros k. rewrite activate_caches. unfold w1.
    rewrite activate_caches.
    destruct (is_old_cache cfg k && bool_decide (storage_fault env k = None)); reflexivity.
  - intros Hfirst. apply activate_outcome. intros k Hk Hold.
    apply (proj1 (activate_outcome cfg env w) Hfirst k); [|exact Hold].
    unfold w1 in Hk. rewrite activate_caches in Hk.
    destruct (is_old_cache cfg k && bool_decide (storage_fault env k = None));
      [destruct Hk; discriminate | exact Hk].
Qed.

(** ** More on install: reinstalling, and serving what was installed *)

Lemma install_ends_with_skipWaiting (cfg : Config) (env : Env) (w : World) :
  last (trace (snd (install cfg env w))) = Some SkipWaiting.
Proof.
  rewrite install_unfold. unfold bind at 1.
  set (w0 := emit (Console log ["Service Worker: Install"]) w).
  pose proof (caches_open_fst (APP_SHELL_CACHE_NAME cfg) w0) as Hf.
  pose proof (caches_open_present (APP_SHELL_CACHE_NAME cfg) w0) as Hp.
  destruct (caches_open (APP_SHELL_CACHE_NAME cfg) w0) as [r w1].
  cbn [fst snd] in *. subst r.
  unfold bind at 1. unfold console at 1. unfold bind at 1.
  destruct (cache_assets_spec env (APP_SHELL_CACHE_NAME cfg) (APP_SHELL_FILES cfg)
              (emit (Console log ["Service Worker: Caching App Shell"]) w1) Hp)
    as (vs & w3 & Hrun & _).
  rewrite Hrun. cbn [snd skipWaiting trace emit]. apply last_snoc.
Qed.

(** X7. Reinstalling refreshes: install is fulfilled whatever the network
    does and ends with [skipWaiting]; every listed asset that is fetched
    successfully is stored with the snapshot just fetched, replacing an older
    one; an entry that no successfully fetched asset replaces is kept; no
    other partition is touched. *)
Theorem install_refreshes_assets (cfg : Config) (env : Env) (w : World) :
  exists w',
    install cfg env w = (Fulfilled tt, w')
    /\ (forall n, n <> APP_SHELL_CACHE_NAME cfg -> caches w' !! n = caches w !! n)
    /\ (forall f s, f ∈ APP_SHELL_FILES cfg -> fetched_asset env f = Some s ->
                    entries w' (APP_SHELL_CACHE_NAME cfg) !! absolute env f = Some s)
    /\ (forall u, (forall f, f ∈ APP_SHELL_FILES cfg -> absolute env f = u ->
                             fetched_asset env f = None) ->
                  entries w' (APP_SHELL_CACHE_NAME cfg) !! u
                  = entries w (APP_SHELL_CACHE_NAME cfg) !! u)
    /\ last (trace w') = Some SkipWaiting.
Proof.
  destruct (install_spec cfg env w) as (w' & Hrun & Hcaches & _).
  exists w'. split; [exact Hrun|].
  assert (Hentries : entries w' (APP_SHELL_CACHE_NAME cfg) =
                     populated env (APP_SHELL_FILES cfg) (entries w (APP_SHELL_CACHE_NAME cfg))).
  { unfold entries at 1. rewrite Hcaches, lookup_insert_eq. reflexivity. }
  split; [|split; [|split]].
  - intros n Hn. rewrite Hcaches. apply lookup_insert_ne. congruence.
  - intros f s Hf Hs. rewrite Hentries. apply populated_lookup. left. eauto.
  - intros u Hnone. rewrite Hentries.
    destruct (populated env (APP_SHELL_FILES cfg) (entries w (APP_SHELL_CACHE_NAME cfg)) !! u)
      as [s|] eqn:Hp.
    + apply populated_lookup in Hp. destruct Hp as [(f & Hf & Hu & Hs)|[_ Hc]].
      * rewrite (Hnone f Hf Hu) in Hs. discriminate.
      * symmetry. exact Hc.
    + destruct (entries w (APP_SHELL_CACHE_NAME cfg) !! u) as [s|] eqn:Hc; [|reflexivity].
      rewrite <- Hp. apply populated_lookup. right. split; assumption.
  - replace w' with (snd (install cfg env w)) by (rewrite Hrun; reflexivity).
    apply install_ends_with_skipWaiting.
Qed.

Lemma string_length_append (a b : string) :
  String.length (a +:+ b) = String.length a + String.length b.
Proof. induction a as [|c a IH]; simpl; [reflexivity | rewrite IH; reflexivity]. Qed.

Lemma substring_all (f : string) : String.substring 0 (String.length f) f = f.
Proof. induction f as [|c f IH]; simpl; [reflexivity | rewrite IH; reflexivity]. Qed.

Lemma substring_after (a f : string) :
  String.substring (String.length a) (String.length f) (a +:+ f) = f.
Proof. induction a as [|c a IH]; simpl; [apply substring_all | exact IH]. Qed.

(** A string ends with each of its suffixes. *)
Lemma endsWith_append (a f : string) : endsWith (a +:+ f) f = true.
Proof.
  unfold endsWith. rewrite string_length_append.
  replace (String.length a + String.length f - String.length f) with (String.length a) by lia.
  rewrite substring_after, String.eqb_refl, andb_true_r.
  apply Nat.leb_le. lia.
Qed.

(** The absolute URL of a listed file ends with the listed file. *)
Lemma endsWith_absolute (env : Env) (f : string) : endsWith (absolute env f) f = true.
Proof.
  unfold absolute. destruct (startsWith f "/").
  - apply endsWith_append.
  - apply (endsWith_append "" f).
Qed.

(** X8. The installed shell is served offline: after install, a request for
    the absolute URL of a listed asset that was fetched successfully (and is
    not under the tile prefix) is answered by the fetch listener from the
    application-shell partition, with the installed snapshot, without any
    network call and whatever the network has become. *)
Theorem installed_asset_served_offline
    (cfg : Config) (env env' : Env) (w : World) (f : string) (s : Snapshot) (request : Request) :
  In f (APP_SHELL_FILES cfg) ->
  fetched_asset env f = Some s ->
  url request = absolute env f ->
  startsWith (url request) (TILE_URL_PATTERN cfg) = false ->
  let w1 := snd (install cfg env w) in
  exists r w2,
    onfetch cfg env' request w1 = (Fulfilled r, w2)
    /\ heap w2 !! r = Some {| content := s; bodyUsed := false |}
    /\ caches w2 = caches w1
    /\ trace w2 = trace w1.
Proof.
  intros Hin Hfetched Hurl Htile w1.
  assert (Happ : isAppShellRequest cfg env' request = true).
  { unfold isAppShellRequest.
    rewrite (endsWith_listed (url request) f _ Hin)
      by (rewrite Hurl; apply endsWith_absolute).
    rewrite orb_true_r. reflexivity. }
  assert (Hstored : entries w1 (APP_SHELL_CACHE_NAME cfg) !! url request = Some s).
  { destruct (install_spec cfg env w) as (w' & Hrun & Hcaches & _).
    unfold w1. rewrite Hrun. cbn [snd]. unfold entries at 1.
    rewrite Hcaches, lookup_insert_eq. apply populated_lookup. left.
    exists f. split; [apply list_elem_of_In; exact Hin|]. split; [symmetry; exact Hurl | exact Hfetched]. }
  unfold onfetch. rewrite Htile, Happ.
  rewrite (cacheFirstThenNetwork_hit env' request _ w1 s Hstored).
  eexists _, _. split; [reflexivity|]. split; [|split; reflexivity].
  cbn [heap set_heap]. apply lookup_snoc_last.
Qed.

Lemma installed_asset_served_offline_witness :
  let offline := {| origin := "https://app.example";
                    network := fun _ => NetFail {| message := "offline" |};
                    storage_fault := fun _ => None |} in
  let request := {| url := "https://app.example/a.html"; mode := "navigate";
                    destination := "document" |} in
  let s := {| status := 200; type := "basic"; body := "https://app.example/a.html" |} in
  let w1 := snd (install scenario_A_config scenario_A_env empty_world) in
  exists r w2,
    onfetch scenario_A_config offline request w1 = (Fulfilled r, w2)
    /\ heap w2 !! r = Some {| content := s; bodyUsed := false |}
    /\ caches w2 = caches w1
    /\ trace w2 = trace w1.
Proof.
  intros offline request s.
  apply (installed_asset_served_offline scenario_A_config scenario_A_env offline
           empty_world "/a.html" s request).
  - left. reflexivity.
  - reflexivity.
  - reflexivity.
  - reflexivity.
Defined.

(** ** More on the fetch listener and the message listener *)

(** The network calls of [cacheFirstThenNetwork]: none on a hit, one on a miss. *)
Lemma cacheFirstThenNetwork_network_calls (env : Env) (request : Request) (P : string) (w : World) :
  network_calls (trace (snd (cacheFirstThenNetwork env request P w))) =
  network_calls (trace w)
  ++ match entries w P !! url request with
     | Some _ => []
     | None => [url request]
     end.
Proof.
  destruct (entries w P !! url request) as [s|] eqn:Hlook.
  - rewrite (cacheFirstThenNetwork_hit env request P w s Hlook).
    cbn. rewrite app_nil_r. reflexivity.
  - rewrite (cacheFirstThenNetwork_miss env request P w Hlook).
    destruct (caches_open_heap_trace P w) as [_ Ht].
    set (w1 := snd (caches_open P w)) in *.
    unfold catch, bind at 1, fetch.
    destruct (network env (url request)) as [s|e].
    + cbn [new_Response]. unfold bind at 1. unfold bind at 1. unfold deref at 1.
      cbn [heap set_heap emit]. rewrite lookup_snoc_last. cbn [content].
      destruct (Nat.eqb (status s) 200 && String.eqb (type s) "basic").
      * unfold bind at 1. unfold clone. cbn [heap set_heap emit].
        rewrite lookup_snoc_last. cbn [bodyUsed content new_Response heap set_heap].
        unfold detached, cache_put. cbn [heap set_heap emit caches trace].
        rewrite length_app. cbn [length].
        replace (length (heap w1) + 1)
          with (length (heap w1 ++ [{| content := s; bodyUsed := false |}]))
          by (rewrite length_app; reflexivity).
        rewrite lookup_snoc_last. cbn [bodyUsed content orb].
        destruct (Nat.eqb (status s) 206);
          cbn [snd resolve trace set_caches set_heap emit];
          rewrite Ht, network_calls_app; reflexivity.
      * cbn [snd resolve trace set_heap emit]. rewrite Ht, network_calls_app. reflexivity.
    + unfold bind, console, reject. cbn [snd trace emit].
      rewrite Ht, !network_calls_app. cbn. rewrite app_nil_r. reflexivity.
Qed.

(** X9. A request that is neither under the tile prefix nor an
    application-shell request goes straight to the network: the cache storage
    is untouched (no partition is opened), one network call is made, the
    answer of the network is returned as it is, and a failure is passed on
    without a console line. *)
Theorem uncached_request_bypasses_storage
    (cfg : Config) (env : Env) (request : Request) (w : World) :
  startsWith (url request) (TILE_URL_PATTERN cfg) = false ->
  isAppShellRequest cfg env request = false ->
  let r := fst (onfetch cfg env request w) in
  let w' := snd (onfetch cfg env request w) in
  caches w' = caches w
  /\ trace w' = trace w ++ [Fetched (url request)]
  /\ match network env (url request) with
     | NetOk s =>
         exists o, r = Fulfilled o
                   /\ heap w' !! o = Some {| content := s; bodyUsed := false |}
     | NetFail e => r = Rejected e /\ heap w' = heap w
     end.
Proof.
  intros Htile Happ. unfold onfetch. rewrite Htile, Happ. unfold fetch.
  destruct (network env (url request)) as [s|e]; cbn zeta.
  - split; [reflexivity|]. split; [reflexivity|].
    eexists. split; [reflexivity|]. cbn [heap set_heap emit snd new_Response].
    apply lookup_snoc_last.
  - repeat split.
Qed.

Lemma uncached_request_bypasses_storage_witness :
  let request := {| url := "https://api.example/v1/places"; mode := "cors"; destination := "" |} in
  let r := fst (onfetch sw_config scenario_A_env request empty_world) in
  let w' := snd (onfetch sw_config scenario_A_env request empty_world) in
  caches w' = caches empty_world
  /\ trace w' = trace empty_world ++ [Fetched (url request)]
  /\ match network scenario_A_env (url request) with
     | NetOk s =>
         exists o, r = Fulfilled o
                   /\ heap w' !! o = Some {| content := s; bodyUsed := false |}
     | NetFail e => r = Rejected e /\ heap w' = heap empty_world
     end.
Proof.
  intros request.
  apply (uncached_request_bypasses_storage sw_config scenario_A_env request empty_world);
    reflexivity.
Defined.

(** X10. A message that is not a [deleteCache] command (no data, or another
    action) is ignored: nothing is deleted, logged or posted. *)
Theorem unknown_message_ignored
    (cfg : Config) (env : Env) (event : MessageEvent) (w : World) :
  (forall d, data event = Some d -> action d <> "deleteCache") ->
  onmessage cfg env event w = (Fulfilled tt, w).
Proof.
  intros Hother. unfold onmessage. destruct (data event) as [d|]; [|reflexivity].
  destruct (String.eqb_spec (action d) "deleteCache") as [Heq|Hne]; [|reflexivity].
  exfalso. apply (Hother d eq_refl Heq).
Qed.

Lemma unknown_message_ignored_witness :
  let event := {| data := Some {| action := "refreshShell" |}; source := Some 7 |} in
  onmessage sw_config scenario_A_env event scenario_B_world = (Fulfilled tt, scenario_B_world).
Proof.
  intros event.
  apply (unknown_message_ignored sw_config scenario_A_env event scenario_B_world).
  intros d Hd. inversion Hd. discriminate.
Defined.

(** X11. Deleting forgets the tiles: after a [deleteCache] command that the
    storage carries out, every tile request, cached before or not, is fetched
    from the network again by the fetch listener. *)
Theorem deleted_tiles_are_refetched
    (cfg : Config) (env : Env) (event : MessageEvent) (request : Request) (w : World) :
  data event = Some {| action := "deleteCache" |} ->
  storage_fault env (TILE_CACHE_NAME cfg) = None ->
  startsWith (url request) (TILE_URL_PATTERN cfg) = true ->
  let w1 := snd (onmessage cfg env event w) in
  entries w1 (TILE_CACHE_NAME cfg) = ∅
  /\ network_calls (trace (snd (onfetch cfg env request w1)))
     = network_calls (trace w1) ++ [url request].
Proof.
  intros Hdata Hfault Htile w1.
  assert (Hgone : entries w1 (TILE_CACHE_NAME cfg) = ∅).
  { destruct (onmessage_deleteCache_spec cfg env event w Hdata) as (w' & Hrun & Hc & _).
    unfold w1. rewrite Hrun. cbn [snd]. unfold entries.
    rewrite Hc, Hfault, lookup_delete_eq. reflexivity. }
  split; [exact Hgone|].
  unfold onfetch. rewrite Htile, cacheFirstThenNetwork_network_calls, Hgone, lookup_empty.
  reflexivity.
Qed.

Lemma deleted_tiles_are_refetched_witness :
  let event := {| data := Some {| action := "deleteCache" |}; source := Some 7 |} in
  let w1 := snd (onmessage sw_config scenario_B_env event scenario_B_world) in
  entries w1 (TILE_CACHE_NAME sw_config) = ∅
  /\ network_calls (trace (snd (onfetch sw_config scenario_B_env tile_request w1)))
     = network_calls (trace w1) ++ [url tile_request].
Proof.
  intros event.
  apply (deleted_tiles_are_refetched sw_config scenario_B_env event tile_request
           scenario_B_world); reflexivity.
Defined.

(** * The page *)

(** ** The URL of a tile *)

Lemma no_brace_uint (d : Decimal.uint) : no_brace (NilEmpty.string_of_uint d).
Proof. induction d; simpl; try exact I; (split; [discriminate | assumption]). Qed.

Lemma no_brace_Number_toString (n : Z) : no_brace (Number_toString n).
Proof.
  unfold Number_toString, NilZero.string_of_int.
  assert (Hu : forall d, no_brace (NilZero.string_of_uint d)).
  { intros d. unfold NilZero.string_of_uint.
    destruct d; try apply (no_brace_uint (Decimal.D0 _)) || idtac;
      first [ split; [discriminate | exact I] | apply no_brace_uint ]. }
  destruct (Z.to_int n); simpl; [apply Hu | split; [discriminate | apply Hu]].
Qed.

(** A pattern that starts with '{' is not found inside a string without '{'. *)
Lemma replace_skip (s t pat rep : string) :
  no_brace s ->
  replace (s +:+ t) (String "{" pat) rep = s +:+ replace t (String "{" pat) rep.
Proof.
  induction s as [|c s IH]; intros Hs; [reflexivity|].
  destruct Hs as [Hc Hs].
  change (String c s +:+ t) with (String c (s +:+ t)).
  cbn [replace String.prefix].
  destruct (ascii_dec "{" c) as [<-|_]; [contradiction|].
  rewrite (IH Hs). reflexivity.
Qed.

Lemma tile_url_spec (z x y : Z) :
  tile_url z x y =
  "https://tile.openstreetmap.org/"
  +:+ (Number_toString z +:+ ("/" +:+ (Number_toString x +:+ ("/" +:+ (Number_toString y +:+ ".png"))))).
Proof.
  unfold tile_url.
  pose proof (no_brace_Number_toString z) as Hz.
  pose proof (no_brace_Number_toString x) as Hx.
  set (zs := Number_toString z) in *. set (xs := Number_toString x) in *.
  set (ys := Number_toString y).
  replace (replace TILE_LAYER_URL "{z}" zs)
    with ("https://tile.openstreetmap.org/" +:+ (zs +:+ "/{x}/{y}.png")) by reflexivity.
  replace (replace ("https://tile.openstreetmap.org/" +:+ (zs +:+ "/{x}/{y}.png")) "{x}" xs)
    with ("https://tile.openstreetmap.org/" +:+ replace (zs +:+ "/{x}/{y}.png") "{x}" xs)
    by reflexivity.
  rewrite (replace_skip zs _ _ _ Hz).
  replace (replace "/{x}/{y}.png" "{x}" xs) with ("/" +:+ (xs +:+ "/{y}.png")) by reflexivity.
  replace (replace ("https://tile.openstreetmap.org/" +:+ (zs +:+ ("/" +:+ (xs +:+ "/{y}.png")))) "{y}" ys)
    with ("https://tile.openstreetmap.org/" +:+ replace (zs +:+ ("/" +:+ (xs +:+ "/{y}.png"))) "{y}" ys)
    by reflexivity.
  rewrite (replace_skip zs _ _ _ Hz).
  replace (replace ("/" +:+ (xs +:+ "/{y}.png")) "{y}" ys)
    with ("/" +:+ replace (xs +:+ "/{y}.png") "{y}" ys) by reflexivity.
  rewrite (replace_skip xs _ _ _ Hx).
  reflexivity.
Qed.

(** A string starts with each of its prefixes. *)
Lemma startsWith_append (p t : string) : startsWith (p +:+ t) p = true.
Proof.
  unfold startsWith. induction p as [|c p IH].
  - destruct t; reflexivity.
  - change (String c p +:+ t) with (String c (p +:+ t)). cbn [String.prefix].
    destruct (ascii_dec c c) as [_|Hne]; [exact IH | contradiction].
Qed.

Lemma tile_url_is_tile (z x y : Z) :
  startsWith (tile_url z x y) (TILE_URL_PATTERN sw_config) = true.
Proof. rewrite tile_url_spec. apply startsWith_append. Qed.

(** X12. The URL that the page builds for a tile is the tile server's prefix
    followed by the decimal numbers z, x, y and ".png", and the worker's
    fetch listener serves every such URL by [cacheFirstThenNetwork] on the
    tile partition, whatever the mode and destination of the request. *)
Theorem tile_url_goes_to_tile_partition
    (env : Env) (z x y : Z) (m d : string) :
  tile_url z x y =
    "https://tile.openstreetmap.org/"
    +:+ (Number_toString z +:+ ("/" +:+ (Number_toString x +:+ ("/" +:+ (Number_toString y +:+ ".png")))))
  /\ onfetch sw_config env {| url := tile_url z x y; mode := m; destination := d |} =
     cacheFirstThenNetwork env {| url := tile_url z x y; mode := m; destination := d |}
       (TILE_CACHE_NAME sw_config).
Proof.
  split; [apply tile_url_spec|].
  apply onfetch_tile. apply tile_url_is_tile.
Qed.

(** ** The tiles of a download *)

Lemma for_range_In (a b v : Z) : In v (for_range a b) <-> (a <= v <= b)%Z.
Proof.
  unfold for_range. rewrite in_map_iff. split.
  - intros (k & <- & Hk). apply in_seq in Hk. lia.
  - intros Hv. exists (Z.to_nat (v - a)). split; [lia|]. apply in_seq. lia.
Qed.

Lemma for_range_length (a b : Z) : length (for_range a b) = Z.to_nat (b - a + 1).
Proof. unfold for_range. rewrite length_map, length_seq. reflexivity. Qed.

Lemma flat_map_length {A B} (f : A -> list B) (l : list A) :
  length (flat_map f l) = list_sum (map (fun a => length (f a)) l).
Proof.
  induction l as [|a l IH]; [reflexivity|].
  cbn [flat_map map list_sum]. rewrite length_app, IH. reflexivity.
Qed.

Lemma flat_map_const_length {A B} (f : A -> list B) (l : list A) (n : nat) :
  (forall a, length (f a) = n) -> length (flat_map f l) = length l * n.
Proof.
  intros Hf. induction l as [|a l IH]; [reflexivity|].
  cbn [flat_map length]. rewrite length_app, IH, Hf. lia.
Qed.

(** X13. The loops of [downloadTiles] enumerate exactly the tiles of the box:
    a URL is in [tileUrls] exactly when it is the URL of a tile whose zoom is
    between [minZoom] and [maxZoom] and whose x and y are between those of
    the two corner tiles at that zoom; their number is the sum over the zoom
    levels of width times height (none for an inverted range). *)
Theorem tileUrls_enumerates_the_box
    (LatLng : Type) (getTileCoordinates : LatLng -> Z -> Tile.t)
    (bounds : Bounds LatLng) (minZoom maxZoom : Z) :
  let topLeft z := getTileCoordinates (getNorthWest LatLng bounds) z in
  let bottomRight z := getTileCoordinates (getSouthEast LatLng bounds) z in
  (forall u,
     In u (tileUrls LatLng getTileCoordinates bounds minZoom maxZoom) <->
     exists z x y,
       (minZoom <= z <= maxZoom)%Z
       /\ (Tile.x (topLeft z) <= x <= Tile.x (bottomRight z))%Z
       /\ (Tile.y (topLeft z) <= y <= Tile.y (bottomRight z))%Z
       /\ u = tile_url z x y)
  /\ length (tileUrls LatLng getTileCoordinates bounds minZoom maxZoom) =
     list_sum
       (map (fun z =>
               Z.to_nat (Tile.x (bottomRight z) - Tile.x (topLeft z) + 1)
               * Z.to_nat (Tile.y (bottomRight z) - Tile.y (topLeft z) + 1))
          (for_range minZoom maxZoom)).
Proof.
  intros topLeft bottomRight. split.
  - intros u. unfold tileUrls. rewrite in_flat_map. split.
    + intros (z & Hz & Hu). apply in_flat_map in Hu. destruct Hu as (x & Hx & Hu).
      apply in_map_iff in Hu. destruct Hu as (y & <- & Hy).
      apply for_range_In in Hz, Hx, Hy. exists z, x, y. auto.
    + intros (z & x & y & Hz & Hx & Hy & ->).
      exists z. split; [apply for_range_In; exact Hz|].
      apply in_flat_map. exists x. split; [apply for_range_In; exact Hx|].
      apply in_map_iff. exists y. split; [reflexivity | apply for_range_In; exact Hy].
  - unfold tileUrls. rewrite flat_map_length. f_equal.
    apply map_ext. intros z.
    rewrite (flat_map_const_length _ _
               (Z.to_nat (Tile.y (bottomRight z) - Tile.y (topLeft z) + 1))).
    + rewrite for_range_length. reflexivity.
    + intros x. rewrite length_map, for_range_length. reflexivity.
Qed.

(** ** The cache check of the page *)

Lemma keys_nonempty (c : gmap string Snapshot) :
  Nat.ltb 0 (length (map fst (map_to_list c))) = true <-> c <> ∅.
Proof.
  rewrite length_map. destruct (map_to_list c) as [|kv l] eqn:E.
  - apply map_to_list_empty_iff in E. subst c. cbn. split; [discriminate | congruence].
  - cbn. split; [|reflexivity]. intros _ ->. rewrite map_to_list_empty in E. discriminate.
Qed.

Lemma checkCacheExists_run (nav : Navigator) (b : Browser) :
  caches_in_window nav = true ->
  checkCacheExists nav b =
  (Fulfilled (Nat.ltb 0 (length (map fst (map_to_list (entries (worker b) "offline-map-tiles-v1"))))),
   {| page := page b; worker := snd (caches_open "offline-map-tiles-v1" (worker b)) |}).
Proof.
  intros Hc. unfold checkCacheExists. rewrite Hc. cbn [negb].
  unfold on_platform, bind.
  pose proof (caches_open_fst "offline-map-tiles-v1" (worker b)) as Hf.
  pose proof (caches_open_entries "offline-map-tiles-v1" "offline-map-tiles-v1" (worker b)) as He.
  destruct (caches_open "offline-map-tiles-v1" (worker b)) as [r w1].
  cbn [fst snd] in *. subst r. unfold cache_keys, resolve. rewrite He. reflexivity.
Qed.

(** X14. [checkCacheExists] answers true exactly when the Cache API is there
    and the partition 'offline-map-tiles-v1' holds at least one entry.  It
    never rejects and changes neither the page nor any entry, but where the
    Cache API is there it leaves the partition in existence: a partition that
    did not exist is created, empty. *)
Theorem checkCacheExists_spec (nav : Navigator) (b : Browser) :
  let r := fst (checkCacheExists nav b) in
  let b' := snd (checkCacheExists nav b) in
  (exists e, r = Fulfilled e)
  /\ (r = Fulfilled true <->
      caches_in_window nav = true /\ entries (worker b) "offline-map-tiles-v1" <> ∅)
  /\ page b' = page b
  /\ (forall n, entries (worker b') n = entries (worker b) n)
  /\ (caches_in_window nav = true -> is_Some (caches (worker b') !! "offline-map-tiles-v1"))
  /\ (caches_in_window nav = false -> b' = b).
Proof.
  destruct (caches_in_window nav) eqn:Hc.
  - rewrite (checkCacheExists_run nav b Hc). cbn [fst snd page worker].
    split; [eauto|]. split; [|split; [reflexivity|split; [|split]]].
    + split.
      * intros H. injection H as Hk. split; [reflexivity|].
        apply keys_nonempty. exact Hk.
      * intros [_ Hne]. apply keys_nonempty in Hne. rewrite Hne. reflexivity.
    + intros n. apply caches_open_entries.
    + intros _. apply caches_open_present.
    + discriminate.
  - unfold checkCacheExists. rewrite Hc. cbn.
    split; [eauto|]. split; [|split; [reflexivity|split; [reflexivity|split]]].
    + split; [discriminate | intros [H _]; discriminate].
    + discriminate.
    + reflexivity.
Qed.

(** ** Deleting the tiles from the page *)

Lemma skipn_app_length {A} (l t : list A) : skipn (length l) (l ++ t) = t.
Proof. induction l as [|a l IH]; [reflexivity | exact IH]. Qed.

(** A confirmed click on [deleteBtn] of a controlled page that listens to the
    worker: the command is posted, the worker handles it, and its reply is
    handled by the listener of the page. *)
Lemma delete_round_trip_run
    (cfg : Config) (env : Env) (nav : Navigator) (client : Client) (b : Browser) :
  serviceWorker_in_navigator nav = true ->
  controller nav = true ->
  message_listener (page b) = true ->
  delete_round_trip cfg env nav client b =
  {| page :=
       onWorkerMessage (Some (reply_data (delete_reply cfg env)))
         (deleteTiles nav
            (show_confirm "ダウンロード済みのオフライン地図を削除しますか？" (page b)));
     worker :=
       snd (onmessage cfg env
              {| data := Some {| action := "deleteCache" |}; source := Some client |}
              (worker b)) |}.
Proof.
  intros Hsw Hctl Hlisten.
  unfold delete_round_trip, onDeleteClick.
  set (p0 := show_confirm _ (page b)).
  assert (Hposted : posted (deleteTiles nav p0) = posted (page b) ++ [{| action := "deleteCache" |}]).
  { unfold deleteTiles. rewrite Hsw, Hctl. reflexivity. }
  assert (Hl : message_listener (deleteTiles nav p0) = true).
  { unfold deleteTiles. rewrite Hsw, Hctl. exact Hlisten. }
  rewrite Hposted, skipn_app_length. cbn [fold_left].
  unfold deliver. cbn [worker page].
  destruct (onmessage_deleteCache_spec cfg env
              {| data := Some {| action := "deleteCache" |}; source := Some client |}
              (worker b) eq_refl) as (w' & Hrun & _ & Hr).
  rewrite Hrun. cbn [snd]. rewrite Hr, skipn_app_length. cbn [source reply_to fold_left].
  rewrite Nat.eqb_refl, Hl. reflexivity.
Qed.

(** X15. Deleting from the page, when the storage deletes: after a confirmed
    click on the delete button of a controlled page that listens to the
    worker, the tile partition is gone, the status line announces the
    deletion, the download button is enabled and the delete button disabled;
    one [deleteCache] command was posted. *)
Theorem delete_round_trip_deleted
    (cfg : Config) (env : Env) (nav : Navigator) (client : Client) (b : Browser) :
  serviceWorker_in_navigator nav = true ->
  controller nav = true ->
  message_listener (page b) = true ->
  storage_fault env (TILE_CACHE_NAME cfg) = None ->
  let b' := delete_round_trip cfg env nav client b in
  caches (worker b') !! TILE_CACHE_NAME cfg = None
  /\ statusDiv_textContent (page b') = "ステータス: オフライン地図のキャッシュが削除されました。"
  /\ downloadBtn_disabled (page b') = false
  /\ deleteBtn_disabled (page b') = true
  /\ posted (page b') = posted (page b) ++ [{| action := "deleteCache" |}].
Proof.
  intros Hsw Hctl Hlisten Hfault b'. unfold b'.
  rewrite (delete_round_trip_run cfg env nav client b Hsw Hctl Hlisten).
  unfold delete_reply. rewrite Hfault. cbn [page worker].
  destruct (onmessage_deleteCache_spec cfg env
              {| data := Some {| action := "deleteCache" |}; source := Some client |}
              (worker b) eq_refl) as (w' & Hrun & Hc & _).
  rewrite Hrun, Hfault in *. cbn [snd]. split; [rewrite Hc; apply lookup_delete_eq|].
  unfold deleteTiles. rewrite Hsw, Hctl. repeat split.
Qed.

Lemma delete_round_trip_deleted_witness :
  let b := {| page := initial_page; worker := scenario_B_world |} in
  let b' := delete_round_trip sw_config scenario_B_env controlled_navigator 7 b in
  caches (worker b') !! TILE_CACHE_NAME sw_config = None
  /\ statusDiv_textContent (page b') = "ステータス: オフライン地図のキャッシュが削除されました。"
  /\ downloadBtn_disabled (page b') = false
  /\ deleteBtn_disabled (page b') = true
  /\ posted (page b') = posted (page b) ++ [{| action := "deleteCache" |}].
Proof.
  intros b.
  apply (delete_round_trip_deleted sw_config scenario_B_env controlled_navigator 7 b);
    reflexivity.
Defined.

(** X16. Deleting from the page, when the storage fails with [e]: no
    partition changes, the status line shows the message of [e], the delete
    button is enabled again, and the download button, disabled when the
    command was posted, stays disabled. *)
Theorem delete_round_trip_failed
    (cfg : Config) (env : Env) (nav : Navigator) (client : Client) (b : Browser) (e : Error) :
  serviceWorker_in_navigator nav = true ->
  controller nav = true ->
  message_listener (page b) = true ->
  storage_fault env (TILE_CACHE_NAME cfg) = Some e ->
  let b' := delete_round_trip cfg env nav client b in
  caches (worker b') = caches (worker b)
  /\ statusDiv_textContent (page b') = "ステータス: キャッシュ削除エラー: " +:+ message e
  /\ deleteBtn_disabled (page b') = false
  /\ downloadBtn_disabled (page b') = true.
Proof.
  intros Hsw Hctl Hlisten Hfault b'. unfold b'.
  rewrite (delete_round_trip_run cfg env nav client b Hsw Hctl Hlisten).
  unfold delete_reply. rewrite Hfault. cbn [page worker].
  destruct (onmessage_deleteCache_spec cfg env
              {| data := Some {| action := "deleteCache" |}; source := Some client |}
              (worker b) eq_refl) as (w' & Hrun & Hc & _).
  rewrite Hrun, Hfault in *. cbn [snd]. split; [exact Hc|].
  unfold deleteTiles. rewrite Hsw, Hctl. repeat split.
Qed.

(** ** Downloading the tiles *)

Lemma same_controls_refl (p : Page) : same_controls p p.
Proof. repeat split. Qed.

Lemma same_controls_trans (p1 p2 p3 : Page) :
  same_controls p1 p2 -> same_controls p2 p3 -> same_controls p1 p3.
Proof.
  unfold same_controls. intros (A1 & A2 & A3 & A4 & A5 & A6) (B1 & B2 & B3 & B4 & B5 & B6).
  repeat split; congruence.
Qed.

(** One tile: the request is answered by the fetch listener of the worker;
    whatever the answer, the callback counts the tile and is fulfilled. *)
Lemma fetch_tile_spec (cfg : Config) (env : Env) (nav : Navigator) (u : string) (b : Browser) :
  controller nav = true ->
  exists p',
    fetch_tile cfg env nav u b =
      (Fulfilled tt,
       {| page := p'; worker := snd (onfetch cfg env (page_request u) (worker b)) |})
    /\ downloadedCount p' = downloadedCount (page b) + 1
    /\ same_controls (page b) p'.
Proof.
  intros Hctl. unfold fetch_tile, task_catch. unfold task_bind at 1. unfold page_fetch.
  rewrite Hctl. change {| url := u; mode := "cors"; destination := "" |} with (page_request u).
  destruct (onfetch cfg env (page_request u) (worker b)) as [[o|e] w]; cbn [snd].
  - unfold task_bind at 1. unfold on_platform, deref. cbn [worker page].
    destruct (heap w !! o) as [ob|]; [destruct (ok (content ob))|];
      cbn [negb]; unfold task_bind, on_page, task_resolve; cbn [page worker];
      (eexists; split; [reflexivity|]; split; [reflexivity | repeat split]).
  - unfold task_bind, on_page; cbn [page worker].
    eexists; split; [reflexivity|]; split; [reflexivity | repeat split].
Qed.

(** A batch: every tile of the batch is requested, in order, and counted. *)
Lemma fetch_tiles_spec (cfg : Config) (env : Env) (nav : Navigator) (l : list string) :
  controller nav = true ->
  forall b,
  exists vs p',
    Task_all (map (fetch_tile cfg env nav) l) b =
      (Fulfilled vs, {| page := p'; worker := served cfg env l (worker b) |})
    /\ downloadedCount p' = downloadedCount (page b) + length l
    /\ same_controls (page b) p'.
Proof.
  intros Hctl. induction l as [|u l IH]; intros b.
  - exists [], (page b). destruct b. cbn. rewrite Nat.add_0_r.
    split; [reflexivity|]. split; [reflexivity | apply same_controls_refl].
  - cbn [map Task_all].
    destruct (fetch_tile_spec cfg env nav u b Hctl) as (p1 & Hrun & Hcount & Hsame).
    rewrite Hrun.
    destruct (IH {| page := p1; worker := snd (onfetch cfg env (page_request u) (worker b)) |})
      as (vs & p2 & Hrest & Hcount2 & Hsame2).
    rewrite Hrest. exists (tt :: vs), p2. split; [reflexivity|]. split.
    + cbn [page] in Hcount2. rewrite Hcount2, Hcount. cbn [length]. lia.
    + apply (same_controls_trans _ p1); assumption.
Qed.

Lemma served_app (cfg : Config) (env : Env) (l1 l2 : list string) (w : World) :
  served cfg env (l1 ++ l2) w = served cfg env l2 (served cfg env l1 w).
Proof. unfold served. apply fold_left_app. Qed.

(** The batches of the loop, one after the other, are the whole list. *)
Lemma chunks_concat {A} (m : nat) :
  forall l : list A,
    length l <= m * 10 ->
    concat (map (fun k => firstn 10 (skipn (k * 10) l)) (seq 0 m)) = l.
Proof.
  induction m as [|m IH]; intros l Hlen.
  - destruct l; [reflexivity | cbn in Hlen; lia].
  - cbn [seq map concat]. rewrite <- seq_shift, map_map.
    rewrite (map_ext _ (fun k => firstn 10 (skipn (k * 10) (skipn 10 l)))).
    + rewrite IH; [apply firstn_skipn|]. rewrite length_skipn. lia.
    + intros k. rewrite skipn_skipn. f_equal. f_equal. lia.
Qed.

Lemma batches_concat {A} (l : list A) :
  concat (map (fun i => slice i (i + 10) l) (for_step (length l) 10)) = l.
Proof.
  unfold for_step. rewrite map_map.
  rewrite (map_ext _ (fun k => firstn 10 (skipn (k * 10) l))).
  - apply chunks_concat.
    pose proof (Nat.div_mod_eq (length l + 10 - 1) 10) as Hd.
    pose proof (Nat.mod_upper_bound (length l + 10 - 1) 10 ltac:(lia)) as Hm.
    lia.
  - intros k. unfold slice. f_equal. lia.
Qed.

(** The loop over the batches: all of them run, none is rejected. *)
Lemma download_loop_spec
    (cfg : Config) (env : Env) (nav : Navigator) (progress_percent : nat -> nat -> Z)
    (tileUrls : list string) (starts : list nat) :
  controller nav = true ->
  forall b,
  exists p',
    task_for starts (download_batch cfg env nav progress_percent tileUrls) b =
      (Fulfilled tt,
       {| page := p';
          worker := served cfg env
                      (concat (map (fun i => slice i (i + 10) tileUrls) starts)) (worker b) |})
    /\ downloadedCount p' =
       downloadedCount (page b)
       + length (concat (map (fun i => slice i (i + 10) tileUrls) starts))
    /\ same_controls (page b) p'.
Proof.
  intros Hctl. induction starts as [|i starts IH]; intros b.
  - exists (page b). destruct b. cbn. rewrite Nat.add_0_r.
    split; [reflexivity|]. split; [reflexivity | apply same_controls_refl].
  - cbn [task_for map concat]. unfold task_bind at 1. unfold download_batch at 1.
    cbn zeta. unfold task_bind at 1.
    destruct (fetch_tiles_spec cfg env nav (slice i (i + 10) tileUrls) Hctl b)
      as (vs & p1 & Hrun & Hcount & Hsame).
    rewrite Hrun. unfold on_page at 1. cbn [page worker].
    match goal with
    | |- context [task_for starts _ {| page := ?q; worker := ?v |}] =>
        destruct (IH {| page := q; worker := v |}) as (p2 & Hrest & Hcount2 & Hsame2)
    end.
    rewrite Hrest. exists p2. cbn [page worker] in *.
    split; [rewrite served_app; reflexivity|]. split.
    + rewrite Hcount2. cbn [downloadedCount updateStatus set_statusDiv_textContent page_log].
      rewrite Hcount, length_app. lia.
    + apply (same_controls_trans _ p1); [exact Hsame|].
      destruct Hsame2 as (A1 & A2 & A3 & A4 & A5 & A6). repeat split; assumption.
Qed.

(** What a download does, on a controlled page, up to its fulfilment. *)
Lemma downloadTiles_run
    (cfg : Config) (env : Env) (nav : Navigator)
    (LatLng : Type) (getTileCoordinates : LatLng -> Z -> Tile.t)
    (progress_percent : nat -> nat -> Z)
    (bounds : Bounds LatLng) (minZoom maxZoom : Z) (b : Browser) :
  serviceWorker_in_navigator nav = true ->
  controller nav = true ->
  let urls := tileUrls LatLng getTileCoordinates bounds minZoom maxZoom in
  exists p',
    downloadTiles cfg env nav LatLng getTileCoordinates progress_percent
      bounds minZoom maxZoom b =
      (Fulfilled tt, {| page := p'; worker := served cfg env urls (worker b) |})
    /\ downloadedCount p' = length urls
    /\ statusDiv_textContent p' = download_complete_status (length urls)
    /\ downloadBtn_disabled p' = false
    /\ deleteBtn_disabled p' = false
    /\ pending p' = pending (page b) ++ [checkCacheExists_then_deleteBtn]
    /\ message_listener p' = message_listener (page b)
    /\ confirms p' = confirms (page b)
    /\ posted p' = posted (page b).
Proof.
  intros Hsw Hctl urls.
  unfold downloadTiles. rewrite Hsw, Hctl. cbn [andb negb]. fold urls.
  unfold task_bind at 1. unfold on_page at 1.
  unfold task_bind at 1. unfold on_page at 1.
  unfold task_bind at 1. unfold on_page at 1.
  unfold task_bind at 1. unfold on_page at 1.
  unfold task_bind at 1. unfold on_page at 1.
  cbn [page worker].
  unfold task_try, task_catch. unfold task_bind at 1.
  match goal with
  | |- context [task_for _ _ {| page := ?q; worker := ?v |}] =>
      destruct (download_loop_spec cfg env nav progress_percent urls
                  (for_step (length urls) 10) Hctl {| page := q; worker := v |})
        as (p1 & Hloop & Hcount & Hsame)
  end.
  rewrite Hloop. rewrite batches_concat in *.
  cbn [page worker downloadedCount set_downloadedCount] in Hcount, Hsame.
  unfold task_bind at 1. unfold on_page at 1. cbn [page worker].
  unfold on_page at 1. cbn [page worker].
  unfold task_bind at 1. unfold on_page at 1. cbn [page worker].
  unfold on_page. cbn [page worker].
  eexists. split; [reflexivity|].
  destruct Hsame as (A1 & A2 & A3 & A4 & A5 & A6).
  cbn [downloadedCount statusDiv_textContent downloadBtn_disabled deleteBtn_disabled
       message_listener confirms posted pending start_unawaited
       set_deleteBtn_disabled set_downloadBtn_disabled updateStatus
       set_statusDiv_textContent page_log].
  rewrite Hcount, A6. repeat split; assumption.
Qed.

Lemma delete_round_trip_failed_witness :
  let b := {| page := initial_page; worker := scenario_B_world |} in
  let e := {| message := "QuotaExceededError" |} in
  let b' := delete_round_trip sw_config failing_storage_env controlled_navigator 7 b in
  caches (worker b') = caches (worker b)
  /\ statusDiv_textContent (page b') = "ステータス: キャッシュ削除エラー: " +:+ message e
  /\ deleteBtn_disabled (page b') = false
  /\ downloadBtn_disabled (page b') = true.
Proof.
  intros b e.
  apply (delete_round_trip_failed sw_config failing_storage_env controlled_navigator 7 b e);
    reflexivity.
Defined.

Lemma tileUrls_are_tiles
    (LatLng : Type) (getTileCoordinates : LatLng -> Z -> Tile.t)
    (bounds : Bounds LatLng) (minZoom maxZoom : Z) (u : string) :
  In u (tileUrls LatLng getTileCoordinates bounds minZoom maxZoom) ->
  startsWith u (TILE_URL_PATTERN sw_config) = true.
Proof.
  unfold tileUrls. intros Hu.
  apply in_flat_map in Hu. destruct Hu as (z & _ & Hu).
  apply in_flat_map in Hu. destruct Hu as (x & _ & Hu).
  apply in_map_iff in Hu. destruct Hu as (y & <- & _).
  apply tile_url_is_tile.
Qed.



(** The tiles of another origin are never stored: under a browser's
    network, the test of line 102 fails for every answer to a URL under a
    cross-origin tile prefix. *)
Lemma cross_origin_tile_not_eligible (cfg : Config) (env : Env) (u : string) (s : Snapshot) :
  basic_only_same_origin env ->
  tiles_cross_origin cfg env ->
  startsWith u (TILE_URL_PATTERN cfg) = true ->
  network env u = NetOk s ->
  eligible s = false.
Proof.
  intros Hbasic Hcross Htile Hnet. unfold eligible.
  destruct (String.eqb_spec (type s) "basic") as [Hty|_]; [|apply andb_false_r].
  pose proof (Hbasic u s Hnet Hty) as Hsame.
  rewrite (Hcross u Htile) in Hsame. discriminate.
Qed.

(** A call of [cacheFirstThenNetwork] whose answer, if any, fails the test of
    line 102 leaves the entries of every partition as they were. *)
Lemma cacheFirstThenNetwork_stores_nothing
    (env : Env) (request : Request) (P : string) (w : World) :
  (forall s, network env (url request) = NetOk s -> eligible s = false) ->
  forall n, entries (snd (cacheFirstThenNetwork env request P w)) n = entries w n.
Proof.
  intros Hno n. unfold entries at 1. rewrite cacheFirstThenNetwork_caches.
  assert (Hopen : match opened P w !! n with Some c => c | None => ∅ end = entries w n).
  { unfold opened. destruct (decide (P = n)) as [->|Hne].
    - rewrite lookup_insert_eq. reflexivity.
    - rewrite lookup_insert_ne by exact Hne. reflexivity. }
  destruct (entries w P !! url request); [reflexivity|].
  destruct (network env (url request)) as [s|e]; [|exact Hopen].
  rewrite (Hno s eq_refl). exact Hopen.
Qed.

Lemma served_stores_nothing (cfg : Config) (env : Env) (l : list string) :
  (forall a, In a l -> startsWith a (TILE_URL_PATTERN cfg) = true) ->
  (forall a s, In a l -> network env a = NetOk s -> eligible s = false) ->
  forall w n, entries (served cfg env l w) n = entries w n.
Proof.
  induction l as [|a l IH]; intros Htiles Hno w n; [reflexivity|].
  change (served cfg env (a :: l) w)
    with (served cfg env l (snd (onfetch cfg env (page_request a) w))).
  rewrite IH.
  - rewrite onfetch_tile by (apply Htiles; left; reflexivity).
    apply cacheFirstThenNetwork_stores_nothing.
    intros s Hs. apply (Hno a s); [left; reflexivity | exact Hs].
  - intros c Hc. apply Htiles. right. exact Hc.
  - intros c s Hc. apply Hno. right. exact Hc.
Qed.

(** X18. Tiles of another origin are not kept by a download: with the
    deployed worker, under a browser's network (an answer has type 'basic'
    only for a URL of the worker's own origin) and a tile server that is
    another origin, [downloadTiles] by a controlled page leaves the entries
    of every partition exactly as they were, and afterwards every tile of the
    list that was not cached before is still fetched from the network by the
    fetch listener. *)
Theorem download_stores_no_cross_origin_tile
    (env : Env) (nav : Navigator)
    (LatLng : Type) (getTileCoordinates : LatLng -> Z -> Tile.t)
    (progress_percent : nat -> nat -> Z)
    (bounds : Bounds LatLng) (minZoom maxZoom : Z) (b : Browser) :
  serviceWorker_in_navigator nav = true ->
  controller nav = true ->
  basic_only_same_origin env ->
  tiles_cross_origin sw_config env ->
  let urls := tileUrls LatLng getTileCoordinates bounds minZoom maxZoom in
  let w' := worker (snd (downloadTiles sw_config env nav LatLng getTileCoordinates
                           progress_percent bounds minZoom maxZoom b)) in
  (forall n, entries w' n = entries (worker b) n)
  /\ (forall u m d,
        In u urls ->
        entries (worker b) (TILE_CACHE_NAME sw_config) !! u = None ->
        network_calls
          (trace (snd (onfetch sw_config env {| url := u; mode := m; destination := d |} w')))
        = network_calls (trace w') ++ [u]).
Proof.
  intros Hsw Hctl Hbasic Hcross urls w'.
  destruct (downloadTiles_run sw_config env nav LatLng getTileCoordinates progress_percent
              bounds minZoom maxZoom b Hsw Hctl) as (p' & Hrun & _).
  fold urls in Hrun.
  assert (Hentries : forall n, entries w' n = entries (worker b) n).
  { intros n. unfold w'. rewrite Hrun. cbn [snd worker].
    apply served_stores_nothing.
    - intros a Ha. apply (tileUrls_are_tiles _ _ _ _ _ _ Ha).
    - intros a s Ha Hs.
      apply (cross_origin_tile_not_eligible sw_config env a s Hbasic Hcross); [|exact Hs].
      apply (tileUrls_are_tiles _ _ _ _ _ _ Ha). }
  split; [exact Hentries|].
  intros u m d Hin Hmiss.
  rewrite onfetch_tile by (apply (tileUrls_are_tiles _ _ _ _ _ _ Hin)).
  rewrite cacheFirstThenNetwork_network_calls. cbn [url].
  rewrite Hentries, Hmiss. reflexivity.
Qed.

(** The network of scenario A is a browser's network, and the tile server is
    another origin than "https://app.example". *)
Lemma scenario_A_env_basic_only_same_origin : basic_only_same_origin scenario_A_env.
Proof.
  intros u s Hnet Hty. unfold same_origin. cbn [origin scenario_A_env].
  unfold scenario_A_env in Hnet. cbn [network] in Hnet.
  destruct (String.eqb u "https://app.example/b.css"); [discriminate|].
  injection Hnet as <-. unfold browser_answer in Hty. cbn [type] in Hty.
  destruct (startsWith u ("https://app.example" +:+ "/")); [reflexivity | discriminate].
Qed.

Lemma scenario_A_env_tiles_cross_origin : tiles_cross_origin sw_config scenario_A_env.
Proof.
  intros u. unfold same_origin, startsWith. cbn [origin scenario_A_env TILE_URL_PATTERN sw_config].
  change ("https://app.example" +:+ "/") with "https://app.example/".
  do 8 (destruct u as [|c u]; [discriminate|];
        cbn [String.prefix];
        match goal with
        | |- context [ascii_dec ?a c] => destruct (ascii_dec a c) as [<-|]; [|discriminate]
        end).
  destruct u as [|c u]; [discriminate|].
  cbn [String.prefix]. destruct (ascii_dec "t" c) as [<-|]; [|discriminate].
  reflexivity.
Qed.

Lemma download_stores_no_cross_origin_tile_witness :
  let urls := tileUrls (Z * Z) corner_tiles scenario_bounds 1 2 in
  let b := {| page := initial_page; worker := empty_world |} in
  let w' := worker (snd (downloadTiles sw_config scenario_A_env controlled_navigator
                           (Z * Z) corner_tiles (fun c t => Z.of_nat (c * 100 / t))
                           scenario_bounds 1 2 b)) in
  (forall n, entries w' n = entries (worker b) n)
  /\ (forall u m d,
        In u urls ->
        entries (worker b) (TILE_CACHE_NAME sw_config) !! u = None ->
        network_calls
          (trace (snd (onfetch sw_config scenario_A_env
                         {| url := u; mode := m; destination := d |} w')))
        = network_calls (trace w') ++ [u]).
Proof.
  intros urls b.
  apply (download_stores_no_cross_origin_tile scenario_A_env controlled_navigator
           (Z * Z) corner_tiles (fun c t => Z.of_nat (c * 100 / t)) scenario_bounds 1 2 b).
  - reflexivity.
  - reflexivity.
  - exact scenario_A_env_basic_only_same_origin.
  - exact scenario_A_env_tiles_cross_origin.
Defined.

(** ** Guards of the page *)

(** X19. The click on the download button checks the zoom range first: unless
    both inputs are numbers with 1 <= minZoom <= maxZoom <= 18, the only
    thing that happens is the status line about the invalid range: no dialog
    is shown, no button changes, nothing is requested from the worker. *)
Theorem download_click_rejects_invalid_zoom
    (cfg : Config) (env : Env) (nav : Navigator)
    (LatLng : Type) (getTileCoordinates : LatLng -> Z -> Tile.t)
    (progress_percent : nat -> nat -> Z)
    (bounds : Bounds LatLng) (minZoom maxZoom : option Z) (answer : bool) (b : Browser) :
  ~ (exists a c, minZoom = Some a /\ maxZoom = Some c /\ (1 <= a <= c)%Z /\ (c <= 18)%Z) ->
  onDownloadClick cfg env nav LatLng getTileCoordinates progress_percent
    bounds minZoom maxZoom answer b =
  (Fulfilled tt,
   {| page := updateStatus "ズームレベルの指定が無効です。1から18の間で、最小 <= 最大となるように設定してください。" (page b);
      worker := worker b |}).
Proof.
  intros Hinvalid. unfold onDownloadClick.
  destruct minZoom as [a|]; [|reflexivity]. destruct maxZoom as [c|]; [|reflexivity].
  destruct ((a <? 1)%Z || (c >? 18)%Z || (a >? c)%Z) eqn:Hcheck; [reflexivity|].
  exfalso. apply Hinvalid. exists a, c.
  apply orb_false_iff in Hcheck. destruct Hcheck as [Hcheck H3].
  apply orb_false_iff in Hcheck. destruct Hcheck as [H1 H2].
  apply Z.ltb_ge in H1. rewrite Z.gtb_ltb in H2, H3.
  apply Z.ltb_ge in H2, H3. repeat split; (reflexivity || lia).
Qed.

Lemma download_click_rejects_invalid_zoom_witness :
  let b := {| page := initial_page; worker := empty_world |} in
  onDownloadClick sw_config scenario_A_env controlled_navigator (Z * Z) corner_tiles
    (fun c t => Z.of_nat (c * 100 / t)) scenario_bounds (Some 0%Z) (Some 19%Z) true b =
  (Fulfilled tt,
   {| page := updateStatus "ズームレベルの指定が無効です。1から18の間で、最小 <= 最大となるように設定してください。" (page b);
      worker := worker b |}).
Proof.
  intros b.
  apply (download_click_rejects_invalid_zoom sw_config scenario_A_env controlled_navigator
           (Z * Z) corner_tiles (fun c t => Z.of_nat (c * 100 / t)) scenario_bounds
           (Some 0%Z) (Some 19%Z) true b).
  intros (a & c & Ha & Hc & Hrange & _). inversion Ha. subst a. lia.
Defined.

(** X20. Without a controlling worker the page neither downloads nor
    deletes: [downloadTiles] and [deleteTiles] only write their status line;
    no button changes, no tile is requested and no command is posted. *)
Theorem no_controller_no_download_no_delete
    (cfg : Config) (env : Env) (nav : Navigator)
    (LatLng : Type) (getTileCoordinates : LatLng -> Z -> Tile.t)
    (progress_percent : nat -> nat -> Z)
    (bounds : Bounds LatLng) (minZoom maxZoom : Z) (b : Browser) :
  serviceWorker_in_navigator nav && controller nav = false ->
  downloadTiles cfg env nav LatLng getTileCoordinates progress_percent
    bounds minZoom maxZoom b =
  (Fulfilled tt,
   {| page := updateStatus "Service Workerが有効ではありません。ダウンロードできません。" (page b);
      worker := worker b |})
  /\ deleteTiles nav (page b) =
     updateStatus "Service Workerが有効ではありません。削除できません。" (page b)
  /\ posted (deleteTiles nav (page b)) = posted (page b).
Proof.
  intros Hno. unfold downloadTiles, deleteTiles. rewrite Hno. repeat split.
Qed.

Lemma no_controller_no_download_no_delete_witness :
  let nav := {| serviceWorker_in_navigator := true; controller := false;
                caches_in_window := true; register_sw := Fulfilled "https://app.example/";
                fetch_TypeError := {| message := "Failed to fetch" |} |} in
  let b := {| page := initial_page; worker := scenario_B_world |} in
  downloadTiles sw_config scenario_A_env nav (Z * Z) corner_tiles
    (fun c t => Z.of_nat (c * 100 / t)) scenario_bounds 1 2 b =
  (Fulfilled tt,
   {| page := updateStatus "Service Workerが有効ではありません。ダウンロードできません。" (page b);
      worker := worker b |})
  /\ deleteTiles nav (page b) =
     updateStatus "Service Workerが有効ではありません。削除できません。" (page b)
  /\ posted (deleteTiles nav (page b)) = posted (page b).
Proof.
  intros nav b.
  apply (no_controller_no_download_no_delete sw_config scenario_A_env nav (Z * Z) corner_tiles
           (fun c t => Z.of_nat (c * 100 / t)) scenario_bounds 1 2 b).
  reflexivity.
Defined.

(** ** The batches of a download, and a deployment as a whole *)

(** X21. The batch loop of [downloadTiles] cuts the list of URLs into
    consecutive batches: put end to end they are the list itself (no tile is
    skipped or requested twice), each batch has at least one and at most ten
    URLs. *)
Theorem batches_cover_the_list (l : list string) :
  let batches := map (fun i => slice i (i + 10) l) (for_step (length l) 10) in
  concat batches = l
  /\ Forall (fun batch => 1 <= length batch <= 10) batches.
Proof.
  intros batches. split; [apply batches_concat|].
  unfold batches, for_step. rewrite map_map. apply Forall_forall.
  intros batch Hin. apply list_elem_of_In, in_map_iff in Hin.
  destruct Hin as (k & <- & Hk). apply in_seq in Hk.
  unfold slice. rewrite length_firstn, length_skipn.
  pose proof (Nat.div_mod_eq (length l + 10 - 1) 10) as Hd.
  pose proof (Nat.mod_upper_bound (length l + 10 - 1) 10 ltac:(lia)) as Hm.
  lia.
Qed.

(** X22. A deployment keeps what it has just installed: with live names that
    carry their class prefix, activation leaves the application-shell
    partition exactly as install left it, whatever the outcome of the sweep
    over the other partitions. *)
Theorem deploy_keeps_installed_shell (cfg : Config) (env : Env) (w : World) :
  generations cfg ->
  caches (snd (deploy cfg env w)) !! APP_SHELL_CACHE_NAME cfg
  = caches (snd (install cfg env w)) !! APP_SHELL_CACHE_NAME cfg.
Proof.
  intros Hgen. unfold deploy, bind.
  destruct (install_spec cfg env w) as (w1 & Hrun & _). rewrite Hrun. cbn [snd].
  rewrite activate_caches.
  destruct (live_not_old cfg Hgen) as [Happ _]. rewrite Happ. reflexivity.
Qed.

Lemma deploy_keeps_installed_shell_witness :
  caches (snd (deploy scenario_A_config failing_storage_env scenario_B_world))
    !! APP_SHELL_CACHE_NAME scenario_A_config
  = caches (snd (install scenario_A_config failing_storage_env scenario_B_world))
      !! APP_SHELL_CACHE_NAME scenario_A_config.
Proof.
  apply (deploy_keeps_installed_shell scenario_A_config failing_storage_env scenario_B_world).
  split; reflexivity.
Defined.
